(** * DeepDream: a shallow embedding of the dreaming pipeline

    The development follows the sources file by file:

    - [Py]         the fragment of the Python run time the program relies on
                   (exceptions, argument binding of a call, [range], slices,
                   [sorted], a state-and-exception monad for the loops);
    - [Numeric]    tensor entries: exact reals extended with the one
                   non-number the code can produce (0/0), mean and standard
                   deviation as torch computes them;
    - [Torch]      tensors of one image (channel, row, column), entrywise
                   operations and [roll];
    - [VideoUtils] utils/video_utils.py ([extract_frames]);
    - [DeepDream]  deepdream.py ([gradient_ascent],
                   [deep_dream_static_image], the three modes and
                   [clipped_zoom]);
    - [Frames]     utils/video_utils.py ([valid_frames], [create_gif]);
    - [Rotation]   deepdream.py ([rotatedRectWithMaxArea], [rotate_bound],
                   [rotate_max_area]);
    - [Noise]      deepdream.py ([deep_dream_video_from_noise]);
    - [Main]       deepdream.py (the choice of the mode in the main block);
    - [Properties] and [Coverage] hold the theorems.
*)

From Stdlib Require Import List ZArith QArith Qround Reals String Ascii Bool.
From Stdlib Require Import Lia Lra Decimal DecimalString Sorted.
Import ListNotations.

Set Implicit Arguments.

(* ================================================================== *)
(** * Python run time *)
(* ================================================================== *)

Module Py.

(** The exception classes the modelled code can raise. *)
Inductive exn : Type :=
| TypeError
| ValueError
| AttributeError
| AssertionError
| UnboundLocalError
| IndexError
| Exception_ (msg : string).

Inductive result (A : Type) : Type :=
| Ok (a : A)
| Raise (e : exn).

Arguments Ok {A} a.
Arguments Raise {A} e.

Definition is_ok {A} (r : result A) : bool :=
  match r with Ok _ => true | Raise _ => false end.

(** Computations over a store [S] that emit events of type [E] and may
    raise.  The store and the events emitted so far survive an exception,
    as the side effects of a Python run do. *)
Definition M (S E A : Type) : Type := S -> result A * S * list E.

Definition ret {S E A} (a : A) : M S E A := fun s => (Ok a, s, []).

Definition raise {S E A} (e : exn) : M S E A := fun s => (Raise e, s, []).

Definition bind {S E A B} (c : M S E A) (k : A -> M S E B) : M S E B :=
  fun s =>
    match c s with
    | (Ok a, s', evs) =>
        match k a s' with
        | (r, s'', evs') => (r, s'', evs ++ evs')
        end
    | (Raise e, s', evs) => (Raise e, s', evs)
    end.

Definition lift {S E A} (r : result A) : M S E A := fun s => (r, s, []).

Definition emit {S E} (ev : E) : M S E unit := fun s => (Ok tt, s, [ev]).

(** [assert b] *)
Definition assert {S E} (b : bool) : M S E unit :=
  if b then ret tt else raise AssertionError.

(** What a run leaves behind. *)
Definition outcome {S E A} (x : result A * S * list E) : result A := fst (fst x).
Definition events {S E A} (x : result A * S * list E) : list E := snd x.

Declare Scope py_scope.
Delimit Scope py_scope with py.
Notation "x <- c ;; k" := (bind c (fun x => k))
  (at level 61, c at next level, right associativity) : py_scope.
Notation "c ;;; k" := (bind c (fun _ => k))
  (at level 61, right associativity) : py_scope.

Local Open Scope py_scope.

(** [for x in xs: body], the loop-carried locals threaded as [l]. *)
Fixpoint for_loop {S E X L} (xs : list X) (body : X -> L -> M S E L) (l : L)
  : M S E L :=
  match xs with
  | [] => ret l
  | x :: xs' => l' <- body x l ;; for_loop xs' body l'
  end.

(** [range(n)]: empty for [n <= 0]. *)
Definition range (n : Z) : list Z :=
  map Z.of_nat (seq 0 (Z.to_nat n)).

(** [enumerate(xs)] *)
Definition enumerate {A} (xs : list A) : list (Z * A) :=
  combine (map Z.of_nat (seq 0 (List.length xs))) xs.

(** [l[start:stop]] for a sequence of length [n]: a negative bound counts
    from the end, and both are clamped into [0, n]. *)
Definition slice_bound (n i : Z) : Z :=
  let j := if (i <? 0)%Z then (i + n)%Z else i in
  Z.max 0 (Z.min n j).

Definition slice {A} (l : list A) (start stop : Z) : list A :=
  let n := Z.of_nat (List.length l) in
  let a := slice_bound n start in
  let b := slice_bound n stop in
  firstn (Z.to_nat (b - a)) (skipn (Z.to_nat a) l).

(** [list.index]: position of the first occurrence, [ValueError] when the
    item is absent. *)
Fixpoint index (x : string) (l : list string) : result Z :=
  match l with
  | [] => Raise ValueError
  | y :: l' =>
      if String.eqb y x then Ok 0%Z
      else match index x l' with
           | Ok i => Ok (i + 1)%Z
           | Raise e => Raise e
           end
  end.

(** [str.endswith] *)
Definition endswith (s suffix : string) : bool :=
  let n := String.length s in
  let k := String.length suffix in
  (k <=? n)%nat && String.eqb (substring (n - k) k s) suffix.

(** [sub in s] on strings. *)
Fixpoint contains (sub s : string) : bool :=
  String.prefix sub s ||
  match s with
  | EmptyString => false
  | String _ s' => contains sub s'
  end.

(** [os.path.join] of a directory and a relative name. *)
Definition path_join (dir name : string) : string :=
  if String.eqb dir EmptyString then name
  else if endswith dir "/" then dir ++ name
  else dir ++ "/" ++ name.

(** [int(x)] of a float: truncation towards zero. *)
Definition int_of_float (x : Q) : Z := Z.quot (Qnum x) (Zpos (Qden x)).

(** [round(x)] and [np.round(x)]: to the nearest integer, a tie to the
    even one. *)
Definition round_half_even (x : Q) : Z :=
  let f := Qfloor x in
  match Qcompare (x - inject_Z f) (1 # 2) with
  | Lt => f
  | Gt => (f + 1)%Z
  | Eq => if Z.even f then f else (f + 1)%Z
  end.

(** [str.lower], ASCII letters. *)
Definition lower_ascii (c : ascii) : ascii :=
  let n := nat_of_ascii c in
  if ((65 <=? n) && (n <=? 90))%nat then ascii_of_nat (n + 32) else c.

Fixpoint lower (s : string) : string :=
  match s with
  | EmptyString => EmptyString
  | String c s' => String (lower_ascii c) (lower s')
  end.

(** [sorted] on strings (insertion sort on the code-point order). *)
Fixpoint insert_sorted (x : string) (l : list string) : list string :=
  match l with
  | [] => [x]
  | y :: l' => if String.leb x y then x :: l else y :: insert_sorted x l'
  end.

Definition sorted (l : list string) : list string :=
  fold_right insert_sorted [] l.

(** [str(n)] for an integer. *)
Definition str_of_int (n : Z) : string :=
  NilZero.string_of_int (Z.to_int n).

(** ** Binding the arguments of a call

    [def f(p1, ..., pn)] without defaults, called with positional
    arguments [pos] and keyword arguments [kw].  Positional arguments fill
    the parameters from the left; a keyword must name a parameter that is
    still free; every parameter must end up bound.  Any violation is a
    [TypeError] raised before the body runs. *)
Section Binding.
Variable V : Type.

Definition argument (name : string) (env : list (string * V)) : option V :=
  match find (fun p => String.eqb (fst p) name) env with
  | Some p => Some (snd p)
  | None => None
  end.

Fixpoint bind_positional (params : list string) (pos : list V)
  : result (list (string * V) * list string) :=
  match pos, params with
  | [], _ => Ok ([], params)
  | _ :: _, [] => Raise TypeError  (* takes n positional arguments but more were given *)
  | v :: pos', p :: params' =>
      match bind_positional params' pos' with
      | Ok (env, free) => Ok ((p, v) :: env, free)
      | Raise e => Raise e
      end
  end.

Fixpoint bind_keywords (free : list string) (kw : list (string * V))
         (env : list (string * V)) : result (list (string * V) * list string) :=
  match kw with
  | [] => Ok (env, free)
  | (k, v) :: kw' =>
      if existsb (String.eqb k) free
      then bind_keywords (filter (fun p => negb (String.eqb k p)) free) kw'
                         (env ++ [(k, v)])
      else Raise TypeError  (* unexpected keyword, or multiple values *)
  end.

Definition bind_args (params : list string) (pos : list V)
           (kw : list (string * V)) : result (list (string * V)) :=
  match bind_positional params pos with
  | Raise e => Raise e
  | Ok (env, free) =>
      match bind_keywords free kw env with
      | Raise e => Raise e
      | Ok (env', []) => Ok env'
      | Ok (_, _ :: _) => Raise TypeError  (* missing required positional argument *)
      end
  end.
End Binding.

End Py.

(* ================================================================== *)
(** * Tensor entries *)
(* ================================================================== *)

Module Numeric.

Local Open Scope R_scope.

(** An entry is a real number or the non-number that [0/0] leaves behind.
    Arithmetic is exact; a non-number operand makes the result a
    non-number, as in torch. *)
Inductive fval : Type :=
| Fin (r : R)
| NaN.

Definition is_fin (a : fval) : Prop :=
  match a with Fin _ => True | NaN => False end.

Definition lift2 (op : R -> R -> R) (a b : fval) : fval :=
  match a, b with
  | Fin x, Fin y => Fin (op x y)
  | _, _ => NaN
  end.

Definition fadd : fval -> fval -> fval := lift2 Rplus.
Definition fsub : fval -> fval -> fval := lift2 Rminus.
Definition fmul : fval -> fval -> fval := lift2 Rmult.

(** Division: [0/0] is the non-number.  A non-zero numerator over zero is
    an infinity in torch; the only division of the program divides centred
    entries by their own standard deviation, which is zero only when every
    centred entry is zero (see [std_zero_centred]), so that case is not
    given a value of its own. *)
Definition fdiv (a b : fval) : fval :=
  match a, b with
  | Fin x, Fin y => if Req_dec_T y 0 then NaN else Fin (x / y)
  | _, _ => NaN
  end.

Definition fsqrt (a : fval) : fval :=
  match a with
  | Fin x => if Rlt_dec x 0 then NaN else Fin (sqrt x)
  | NaN => NaN
  end.

(** [torch.min(a, b)] and [torch.max(a, b)] on two tensors are the
    entrywise minimum and maximum, which hand a non-number through. *)
Definition fmin : fval -> fval -> fval := lift2 Rmin.
Definition fmax : fval -> fval -> fval := lift2 Rmax.

Definition fsum (l : list fval) : fval := fold_right fadd (Fin 0) l.

Definition Rsum (l : list R) : R := fold_right Rplus 0 l.

Definition count (l : list fval) : fval := Fin (INR (List.length l)).

(** The sum of squared deviations from [mu]. *)
Definition squares (mu : R) (rs : list R) : R :=
  Rsum (map (fun x => (x - mu) * (x - mu)) rs).

(** [torch.mean]: the sum over the number of entries. *)
Definition mean (l : list fval) : fval := fdiv (fsum l) (count l).

(** [torch.std], unbiased as by default: the square root of the sum of
    squared deviations over [max(0, N - 1)]. *)
Definition std (l : list fval) : fval :=
  let m := mean l in
  let dev := map (fun x => fmul (fsub x m) (fsub x m)) l in
  fsqrt (fdiv (fsum dev) (Fin (INR (List.length l - 1)))).

(** Reading an entry within bounds: a non-number is within none. *)
Definition within (lo hi : R) (a : fval) : Prop :=
  match a with
  | Fin x => lo <= x <= hi
  | NaN => False
  end.

End Numeric.

(* ================================================================== *)
(** * Tensors *)
(* ================================================================== *)

Module Torch.
Import Numeric.

(** A batch of one image: channels, each a list of rows. *)
Definition tensor : Type := list (list (list fval)).

Definition flatten (t : tensor) : list fval := List.concat (map (@List.concat fval) t).

Definition tmap (f : fval -> fval) (t : tensor) : tensor :=
  map (map (map f)) t.

Fixpoint map2 {A B C} (f : A -> B -> C) (l : list A) (l' : list B) : list C :=
  match l, l' with
  | a :: l, b :: l' => f a b :: map2 f l l'
  | _, _ => []
  end.

(** Entrywise operation on two tensors of one shape. *)
Definition tmap2 (f : fval -> fval -> fval) (t u : tensor) : tensor :=
  map2 (map2 (map2 f)) t u.

Definition tmean (t : tensor) : fval := mean (flatten t).
Definition tstd (t : tensor) : fval := std (flatten t).

Definition zeros_like (t : tensor) : tensor := tmap (fun _ => Fin 0%R) t.

(** A bound of shape (1, C, 1, 1), read per channel. *)
Definition bound : Type := nat -> R.

Fixpoint with_channel {A B} (f : nat -> A -> B) (c : nat) (l : list A) : list B :=
  match l with
  | [] => []
  | a :: l' => f c a :: with_channel f (S c) l'
  end.

(** [torch.min(t, b)] and [torch.max(t, b)], [b] broadcast over rows and
    columns. *)
Definition tmin (t : tensor) (b : bound) : tensor :=
  with_channel (fun c => map (map (fun x => fmin x (Fin (b c))))) 0 t.

Definition tmax (t : tensor) (b : bound) : tensor :=
  with_channel (fun c => map (map (fun x => fmax x (Fin (b c))))) 0 t.

(** Every entry of channel [c] lies within [[lo c, hi c]]. *)
Definition bounded (lo hi : bound) (t : tensor) : Prop :=
  forall c plane,
    nth_error t c = Some plane -> Forall (Forall (within (lo c) (hi c))) plane.

Definition finite (t : tensor) : Prop := Forall is_fin (flatten t).

Definition all_zeros (t : tensor) : Prop := Forall (eq (Fin 0%R)) (flatten t).

(** [torch.roll] along one dimension: the entry at [i] moves to
    [(i + k) mod n]. *)
Definition roll {A} (k : Z) (l : list A) : list A :=
  match l with
  | [] => l
  | _ :: _ =>
      let n := List.length l in
      let r := Z.to_nat (k mod Z.of_nat n) in
      skipn (n - r) l ++ firstn (n - r) l
  end.

(** [torch.roll(t, shifts=(h, w), dims=(2, 3))]: rows by [h], columns by
    [w], in every channel. *)
Definition roll_hw (h w : Z) (t : tensor) : tensor :=
  map (fun plane => roll h (map (roll w) plane)) t.

(** A tensor that requires a gradient: its data and the gradient buffer
    ([None] until a backward pass fills it). *)
Record variable : Type := {
  data : tensor;
  grad : option tensor
}.

End Torch.

(* ================================================================== *)
(** * The outside world *)
(* ================================================================== *)

Module World.
Import Numeric Torch.

(** A numpy image: rows of pixels, a pixel being its channel values
    (channel last). *)
Definition image : Type := list (list (list fval)).

(** [img.shape[:2]] *)
Definition height {A} (img : list (list A)) : Z := Z.of_nat (List.length img).
Definition width {A} (img : list (list A)) : Z :=
  match img with
  | [] => 0
  | row :: _ => Z.of_nat (List.length row)
  end.

(** [img.shape] of an image. *)
Definition shape (img : image) : list Z :=
  [height img; width img;
   match img with
   | (px :: _) :: _ => Z.of_nat (List.length px)
   | _ => 0%Z
   end].

(** The configuration dictionary built from the command line. *)
Record config : Type := {
  input : string;
  input_name : string;
  img_dimensions : option (list Z);   (* None, or the dimensions / a shape *)
  layers_to_use : list string;
  text_prompt : string;
  model_name : string;
  pretrained_weights : string;
  pyramid_size : Z;
  pyramid_ratio : R;
  num_gradient_ascent_iterations : Z;
  lr : R;
  create_ouroboros : bool;
  ouroboros_length : Z;
  fps : Z;
  frame_transform : string;
  blend : option R;
  create_from_noise : option string;
  spatial_shift_size : Z;
  smoothing_coefficient : R;
  use_noise : bool;
  dump_dir : string
}.

(** [config['dump_dir'] = d] *)
Definition set_dump_dir (c : config) (d : string) : config :=
  {| input := input c; input_name := input_name c;
     img_dimensions := img_dimensions c; layers_to_use := layers_to_use c;
     text_prompt := text_prompt c; model_name := model_name c;
     pretrained_weights := pretrained_weights c;
     pyramid_size := pyramid_size c; pyramid_ratio := pyramid_ratio c;
     num_gradient_ascent_iterations := num_gradient_ascent_iterations c;
     lr := lr c; create_ouroboros := create_ouroboros c;
     ouroboros_length := ouroboros_length c; fps := fps c;
     frame_transform := frame_transform c; blend := blend c;
     create_from_noise := create_from_noise c;
     spatial_shift_size := spatial_shift_size c;
     smoothing_coefficient := smoothing_coefficient c;
     use_noise := use_noise c; dump_dir := d |}.

(** [config['img_dimensions'] = d] *)
Definition set_img_dimensions (c : config) (d : list Z) : config :=
  {| input := input c; input_name := input_name c;
     img_dimensions := Some d; layers_to_use := layers_to_use c;
     text_prompt := text_prompt c; model_name := model_name c;
     pretrained_weights := pretrained_weights c;
     pyramid_size := pyramid_size c; pyramid_ratio := pyramid_ratio c;
     num_gradient_ascent_iterations := num_gradient_ascent_iterations c;
     lr := lr c; create_ouroboros := create_ouroboros c;
     ouroboros_length := ouroboros_length c; fps := fps c;
     frame_transform := frame_transform c; blend := blend c;
     create_from_noise := create_from_noise c;
     spatial_shift_size := spatial_shift_size c;
     smoothing_coefficient := smoothing_coefficient c;
     use_noise := use_noise c; dump_dir := dump_dir c |}.

(** What the operating system and the libraries answer. *)
Record env : Type := {
  which : string -> option string;     (* shutil.which *)
  cap_fps : string -> Q;               (* cv.VideoCapture(path).get(cv.CAP_PROP_FPS) *)
  listdir : string -> list string;     (* os.listdir *)
  glob_jpg : string -> list string;    (* glob.glob(dir + '/*.jpg') *)
  random_raw : nat -> Z                (* the generator's n-th raw draw *)
}.

(** The calls a run makes that the claims speak about, in the order they
    are made. *)
Inductive event : Type :=
| Subprocess (argv : list string)
| Makedirs (path : string)
| Rmtree (path : string)
| Resize (pyramid_level : Z) (new_shape : Z * Z)
| Shift (h_shift w_shift : Z)
| GradientAscent (pyramid_level iteration : Z)
| Undo (h_shift w_shift : Z)
| LoadFrame (frame_id : Z) (frame_name : string)
| Blend (frame_id : Z)
| Dream (frame : option image)
| Save (name_modifier : option Z) (frame : option image)
| Transform (frame : option image)
| CreateVideo (width height fps : Z) (frames : list string).

(** The store: how many raw draws the generator has handed out. *)
Definition prog (A : Type) : Type := Py.M nat event A.

(** [np.random.randint(low, high)]: uniform in [[low, high)], a
    [ValueError] when the interval is empty. *)
Definition randint (E : env) (low high : Z) : prog Z :=
  fun n =>
    if (low <? high)%Z
    then (Py.Ok (low + random_raw E n mod (high - low))%Z, S n, [])
    else (Py.Raise Py.ValueError, n, []).

Definition is_gradient_ascent (ev : event) : bool :=
  match ev with
  | GradientAscent _ _ => true
  | _ => false
  end.

(** The events of the two nested loops: a resize per level, a gradient
    ascent per iteration. *)
Definition is_step (ev : event) : bool :=
  match ev with
  | Resize _ _ | GradientAscent _ _ => true
  | _ => false
  end.

(** The offsets an iteration draws when [n] raw draws were made before. *)
Definition drawn (E : env) (spatial_shift_size : Z) (n : nat) : Z :=
  (- spatial_shift_size + random_raw E n mod (spatial_shift_size + 1 - - spatial_shift_size))%Z.

End World.

(* ================================================================== *)
(** * utils/video_utils.py *)
(* ================================================================== *)

Module VideoUtils.
Import Py World.
Local Open Scope py_scope.
Local Open Scope string_scope.

Record metadata : Type := {
  pattern : string;
  video_fps : Z
}.

(** Truth value of what [shutil.which] returns: [None] and the empty
    string are false. *)
Definition found (E : env) (cmd : string) : bool :=
  match which E cmd with
  | Some path => negb (String.eqb path "")
  | None => false
  end.

Definition extract_frames (E : env) (video_path dump_dir : string)
  : prog metadata :=
  let ffmpeg := "ffmpeg" in
  if found E ffmpeg then
    let fps := int_of_float (cap_fps E video_path) in
    let input_options := ["-i"; video_path] in
    let extract_options := ["-r"; str_of_int fps] in
    let out_frame_pattern := path_join dump_dir "frame_%6d.jpg" in
    let less_verbose := ["-loglevel"; "warning"] in
    emit (Subprocess ([ffmpeg] ++ input_options ++ extract_options
                               ++ less_verbose ++ [out_frame_pattern])) ;;;
    ret {| pattern := out_frame_pattern; video_fps := fps |}
  else
    raise (Exception_ "ffmpeg not found in the system path, aborting.").

(** The writer is opened on [(width, height)] read from
    [config['img_dimensions']] and fed the sorted .jpg files of the dump
    directory. *)
Definition create_video_from_intermediate_results (E : env) (config : config)
  : prog unit :=
  match img_dimensions config with
  | Some (height :: width :: _) =>
      emit (CreateVideo width height (fps config)
                        (sorted (glob_jpg E (dump_dir config))))
  | Some _ => raise IndexError
  | None => raise TypeError
  end.

End VideoUtils.

(* ================================================================== *)
(** * deepdream.py *)
(* ================================================================== *)

Module DeepDream.
Import Py Numeric Torch World VideoUtils.
Local Open Scope py_scope.
Local Open Scope string_scope.

(** A prepared network: what the code reads of it. *)
Record model : Type := {
  class_name : string;          (* model.__class__.__name__ *)
  layer_names : list string
}.

(** utils/utils.py and utils/constants.py are not part of the sources:
    the helpers and constants deepdream.py takes from them are the fields
    of this interface, total functions on the values the code hands them.
    [loss_gradient] stands for the forward pass, the loss of lines 33-45
    and [loss.backward()]: the gradient of the loss at the input. *)
Record utils : Type := {
  parse_input_file : string -> string;
  load_image : string -> option (list Z) -> image;
  random_uniform : nat -> list Z -> image;
  pre_process_numpy_img : image -> image;
  post_process_numpy_img : image -> image;
  get_new_shape : config -> Z * Z -> Z -> Z * Z;
  cv_resize : image -> Z * Z -> image;
  pad_image_to_shape : image -> Z * Z -> image;
  extract_original_from_padded : image -> Z * Z -> image;
  pytorch_input_adapter : image -> tensor;
  pytorch_output_adapter : tensor -> image;
  loss_gradient : model -> tensor * option string -> list Z -> tensor;
  CascadeGaussianSmoothing : Z -> R -> tensor -> tensor;
  save_and_maybe_display_image : config -> option image -> option Z -> string;
  transform_frame : config -> option image -> option image;
  linear_blend : image -> image -> R -> image;
  FixedImageResolutionClasses : list string;
  SUPPORTED_IMAGE_FORMATS : list string;
  OUT_VIDEOS_PATH : string;
  UPPER_IMAGE_BOUND : bound;
  LOWER_IMAGE_BOUND : bound
}.

(** Modelled from the spec: utils.random_circular_spatial_shift, which is
    not part of the sources.  It shifts the tensor circularly along height
    and width by the two offsets, and by their opposites when asked to
    undo; the result is a fresh tensor, without a gradient yet. *)
Definition random_circular_spatial_shift (t : variable) (h_shift w_shift : Z)
           (should_undo : bool) : variable :=
  let h := if should_undo then (- h_shift)%Z else h_shift in
  let w := if should_undo then (- w_shift)%Z else w_shift in
  {| data := roll_hw h w (data t); grad := None |}.


Section Program.
Variable E : env.
Variable U : utils.

(** ** gradient_ascent *)

(** Steps 0-2 and [loss.backward()]: the gradient is added to the
    buffer, or becomes the buffer when there is none yet. *)
Definition backward (model : model) (input_tensor : variable)
           (input_text : string) (layer_ids_to_use : list Z) : tensor :=
  let fed := if contains "CLIP" (class_name model)
             then (data input_tensor, Some input_text)
             else (data input_tensor, None) in
  let g := loss_gradient U model fed layer_ids_to_use in
  match grad input_tensor with
  | None => g
  | Some g0 => tmap2 fadd g0 g
  end.

(** Step 3, smoothing (lines 53-54), for a number of iterations that is
    not zero: inside the loop of [deep_dream_static_image] it is at least
    1.  What line 53 does when it is zero is in [call_gradient_ascent]. *)
Definition smoothed (config : config) (iteration : Z) (grad : tensor) : tensor :=
  let sigma := (IZR (iteration + 1) / IZR (num_gradient_ascent_iterations config)
                * 2 + smoothing_coefficient config)%R in
  CascadeGaussianSmoothing U 9 sigma grad.

(** Step 3, normalization (lines 58-61). *)
Definition normalized (smooth_grad : tensor) : tensor :=
  let g_std := tstd smooth_grad in
  let g_mean := tmean smooth_grad in
  let smooth_grad := tmap (fun x => fsub x g_mean) smooth_grad in
  let smooth_grad := tmap (fun x => fdiv x g_std) smooth_grad in
  smooth_grad.

(** Step 4 (line 64). *)
Definition ascent (config : config) (data smooth_grad : tensor) : tensor :=
  tmap2 fadd data (tmap (fmul (Fin (lr config))) smooth_grad).

(** Step 5, the clamp (line 68). *)
Definition clamp (data : tensor) : tensor :=
  tmax (tmin data (UPPER_IMAGE_BOUND U)) (LOWER_IMAGE_BOUND U).

Definition gradient_ascent (config : config) (model : model)
           (input_tensor : variable) (input_text : string)
           (layer_ids_to_use : list Z) (iteration : Z) : variable :=
  let grad := backward model input_tensor input_text layer_ids_to_use in
  let smooth_grad := smoothed config iteration grad in
  let smooth_grad := normalized smooth_grad in
  let data := ascent config (data input_tensor) smooth_grad in
  let grad := zeros_like grad in
  let data := clamp data in
  {| data := data; grad := Some grad |}.

(** [ZeroDivisionError], from the division of two ints. *)
Definition division_by_zero : exn := Exception_ "division by zero".

(** A call of [gradient_ascent], with the tensor it leaves behind: the
    function works on its argument in place and returns nothing.  Line 53
    divides by [config['num_gradient_ascent_iterations']]: when that is 0
    the call raises there, after [loss.backward()] has put the gradient
    into the buffer and before the data or the buffer are touched again;
    otherwise the call returns and leaves what [gradient_ascent] says. *)
Definition call_gradient_ascent (config : config) (model : model)
           (input_tensor : variable) (input_text : string)
           (layer_ids_to_use : list Z) (iteration : Z)
  : result unit * variable :=
  if (num_gradient_ascent_iterations config =? 0)%Z
  then (Raise division_by_zero,
        {| data := data input_tensor;
           grad := Some (backward model input_tensor input_text layer_ids_to_use) |})
  else (Ok tt,
        gradient_ascent config model input_tensor input_text
                        layer_ids_to_use iteration).

(** ** deep_dream_static_image *)

(** Line 74: the index of every layer to use among the model's layers. *)
Fixpoint layer_ids (names layers : list string) : result (list Z) :=
  match layers with
  | [] => Ok []
  | layer_name :: rest =>
      match index layer_name names with
      | Raise e => Raise e
      | Ok i =>
          match layer_ids names rest with
          | Raise e => Raise e
          | Ok ids => Ok (i :: ids)
          end
      end
  end.

Definition fixed_resolution (model : model) : bool :=
  existsb (String.eqb (class_name model)) (FixedImageResolutionClasses U).

(** Lines 104-110: one iteration of the inner loop.  The loop runs it
    for [iteration] in [range(num_gradient_ascent_iterations)], a number
    that is then at least 1: the call of line 108 returns and leaves what
    [gradient_ascent] says. *)
Definition jittered_step (config : config) (model : model) (input_text : string)
           (layer_ids_to_use : list Z) (pyramid_level iteration : Z)
           (input_tensor : variable) : prog variable :=
  h_shift <- randint E (- spatial_shift_size config) (spatial_shift_size config + 1) ;;
  w_shift <- randint E (- spatial_shift_size config) (spatial_shift_size config + 1) ;;
  emit (Shift h_shift w_shift) ;;;
  let input_tensor := random_circular_spatial_shift input_tensor h_shift w_shift false in
  emit (GradientAscent pyramid_level iteration) ;;;
  let input_tensor := gradient_ascent config model input_tensor input_text
                                      layer_ids_to_use iteration in
  emit (Undo h_shift w_shift) ;;;
  ret (random_circular_spatial_shift input_tensor h_shift w_shift true).

(** Lines 95-116: one level of the pyramid. *)
Definition pyramid_step (config : config) (model : model) (input_text : string)
           (layer_ids_to_use : list Z) (base_shape : Z * Z)
           (pyramid_level : Z) (img : image) : prog image :=
  let new_shape := get_new_shape U config base_shape pyramid_level in
  emit (Resize pyramid_level new_shape) ;;;
  let img := cv_resize U img (snd new_shape, fst new_shape) in
  let img := if fixed_resolution model
             then pad_image_to_shape U img base_shape else img in
  let input_tensor := {| data := pytorch_input_adapter U img; grad := None |} in
  input_tensor <-
    for_loop (range (num_gradient_ascent_iterations config))
             (jittered_step config model input_text layer_ids_to_use pyramid_level)
             input_tensor ;;
  let img := pytorch_output_adapter U (data input_tensor) in
  let img := if fixed_resolution model
             then extract_original_from_padded U img new_shape else img in
  ret img.

(** Lines 80-86: the image to start from. *)
Definition starting_image (config : config) (img : option image) : prog image :=
  match img with
  | Some img => ret img
  | None =>
      let img_path := parse_input_file U (input config) in
      let img := load_image U img_path (img_dimensions config) in
      if use_noise config
      then fun n => (Ok (random_uniform U n (shape img)), S n, [])
      else ret img
  end.

(** The body of [deep_dream_static_image(model, config, img)]; the
    result is [None] for the bare [return] of line 78.  The two [print]
    calls of the handler are not modelled. *)
Definition deep_dream_static_image (model : model) (config : config)
           (img : option image) : prog (option image) :=
  match layer_ids (layer_names model) (layers_to_use config) with
  | Raise _ => ret None
  | Ok layer_ids_to_use =>
      img <- starting_image config img ;;
      let img := pre_process_numpy_img U img in
      let base_shape := (height img, width img) in
      let input_text := text_prompt config in
      img <- for_loop (range (pyramid_size config))
                      (pyramid_step config model input_text layer_ids_to_use base_shape)
                      img ;;
      ret (Some (post_process_numpy_img U img))
  end.

(** ** Calling deep_dream_static_image *)

(** The values the call sites pass. *)
Inductive pyval : Type :=
| PNone
| PConfig (c : config)
| PModel (m : model)
| PImage (img : image).

Definition of_frame (frame : option image) : pyval :=
  match frame with
  | Some img => PImage img
  | None => PNone
  end.

Definition deep_dream_static_image_params : list string :=
  ["model"; "config"; "img"].

(** A call: the arguments are bound to [(model, config, img)], then the
    body runs.  An argument of another kind than the body expects makes
    the first access to it fail ([model.layer_names] on a value that is
    not a model raises [AttributeError] again in the handler's second
    [print]). *)
Definition call_deep_dream_static_image (pos : list pyval)
           (kw : list (string * pyval)) : prog (option image) :=
  args <- lift (bind_args deep_dream_static_image_params pos kw) ;;
  match argument "model" args, argument "config" args, argument "img" args with
  | Some (PModel m), Some (PConfig c), Some (PImage img) =>
      deep_dream_static_image m c (Some img)
  | Some (PModel m), Some (PConfig c), Some PNone =>
      deep_dream_static_image m c None
  | Some (PModel _), _, _ => raise TypeError
  | _, _, _ => raise AttributeError
  end.

(** The four call sites: lines 142, 186, 444 and 333. *)
Definition ouroboros_call (config : config) (frame : option image)
  : prog (option image) :=
  call_deep_dream_static_image [PConfig config; of_frame frame] [].

Definition video_call (config : config) (frame : image) : prog (option image) :=
  call_deep_dream_static_image [PConfig config; PImage frame] [].

Definition static_call (config : config) : prog (option image) :=
  call_deep_dream_static_image [PConfig config] [("img", PNone)].

Definition from_noise_call (model : model) (config : config) (frame : image)
  : prog (option image) :=
  call_deep_dream_static_image [PModel model; PConfig config; PImage frame] [].

(** ** The three modes

    Each mode is written over the call it makes to dream a frame; the
    program's own modes pass the call sites above. *)

(** Lines 139-148: one ouroboros iteration. *)
Definition ouroboros_step (dream : config -> option image -> prog (option image))
           (config : config) (frame_id : Z) (frame : option image)
  : prog (option image) :=
  emit (Dream frame) ;;;
  frame <- dream config frame ;;
  let dump_path := save_and_maybe_display_image U config frame (Some frame_id) in
  emit (Save (Some frame_id) frame) ;;;
  emit (Transform frame) ;;;
  ret (transform_frame U config frame).

Definition deep_dream_video_ouroboros_with
           (dream : config -> option image -> prog (option image))
           (config : config) : prog World.config :=
  assert (existsb (fun img_ext => endswith (lower (input_name config)) img_ext)
                  (SUPPORTED_IMAGE_FORMATS U)) ;;;
  let img_path := parse_input_file U (input config) in
  let frame := if use_noise config then None
               else Some (load_image U img_path (img_dimensions config)) in
  frame <- for_loop (range (ouroboros_length config))
                    (ouroboros_step dream config) frame ;;
  match frame with
  | None => raise AttributeError          (* frame.shape *)
  | Some frame =>
      let config := set_img_dimensions config (shape frame) in
      create_video_from_intermediate_results E config ;;;
      ret config
  end.

Definition deep_dream_video_ouroboros : config -> prog World.config :=
  deep_dream_video_ouroboros_with ouroboros_call.

(** Lines 168-199: one frame of the video.  The locals carried round
    the loop are [last_img] and [frame] ([None] while unassigned). *)
Definition video_frame (dream : config -> image -> prog (option image))
           (config : config) (tmp_input_dir : string) (x : Z * string)
           (locals : option image * option image)
  : prog (option image * option image) :=
  let frame_id := fst x in
  let frame_name := snd x in
  let last_img := fst locals in
  emit (LoadFrame frame_id frame_name) ;;;
  let frame_path := path_join tmp_input_dir frame_name in
  let frame := load_image U frame_path (img_dimensions config) in
  frame <- match blend config, last_img with
           | Some coefficient, Some last_img =>
               emit (Blend frame_id) ;;;
               ret (linear_blend U last_img frame coefficient)
           | _, _ => ret frame
           end ;;
  emit (Dream (Some frame)) ;;;
  dreamed_frame <- dream config frame ;;
  let last_img := dreamed_frame in
  let dump_path := save_and_maybe_display_image U config dreamed_frame (Some frame_id) in
  emit (Save (Some frame_id) dreamed_frame) ;;;
  ret (last_img, Some frame).

Definition deep_dream_video_with (dream : config -> image -> prog (option image))
           (config : config) : prog World.config :=
  let video_path := parse_input_file U (input config) in
  let tmp_input_dir := path_join (OUT_VIDEOS_PATH U) "tmp_input" in
  let tmp_output_dir := path_join (OUT_VIDEOS_PATH U) "tmp_out" in
  let config := set_dump_dir config tmp_output_dir in
  emit (Makedirs tmp_input_dir) ;;;
  emit (Makedirs tmp_output_dir) ;;;
  metadata <- extract_frames E video_path tmp_input_dir ;;
  locals <- for_loop (enumerate (sorted (listdir E tmp_input_dir)))
                     (video_frame dream config tmp_input_dir) (None, None) ;;
  match snd locals with
  | None => raise UnboundLocalError       (* frame.shape, no frame loaded *)
  | Some frame =>
      let config := set_img_dimensions config (shape frame) in
      create_video_from_intermediate_results E config ;;;
      emit (Rmtree tmp_input_dir) ;;;
      ret config
  end.

Definition deep_dream_video : config -> prog World.config :=
  deep_dream_video_with video_call.

(** Lines 443-446: the static image mode. *)
Definition static_image_mode (config : config) : prog unit :=
  img <- static_call config ;;
  let dump_path := save_and_maybe_display_image U config img None in
  emit (Save None img) ;;;
  ret tt.

End Program.

(** The test of line 178. *)
Definition blended (config : config) (last_img : option image) : bool :=
  match blend config, last_img with
  | Some _, Some _ => true
  | _, _ => false
  end.

(** The frame handed to the dream call of line 186. *)
Definition dream_input (U : utils) (config : config) (last_img : option image)
           (frame : image) : image :=
  match blend config, last_img with
  | Some coefficient, Some last_img => linear_blend U last_img frame coefficient
  | _, _ => frame
  end.

(** ** clipped_zoom

    A numpy array of at least two dimensions as rows of entries; what lies
    below the second dimension (the channels) is an entry [A].  The
    interpolation of [scipy.ndimage.zoom] is [resample], asked for an
    output of a given height and width.  [zoom_factor] is the exact value
    of the float the code is handed, and the products and quotients the
    code rounds are rounded here from their exact values: the code rounds
    the double nearest to them, which gives the same integer whenever the
    product or quotient is itself a double (as for a factor of 0.5) or lies
    on the same side of the rounding boundary (as 10 / 3). *)
Section ClippedZoom.
Variable A : Type.
Variable zero : A.
Variable resample : list (list A) -> Z -> Z -> list (list A).

Definition array : Type := list (list A).

(** [zoom(a, (z, z, 1, ...))]: every output dimension is
    [int(round(n * z))]; a negative one is refused. *)
Definition zoom (a : array) (z : Q) : result array :=
  let oh := round_half_even (inject_Z (height a) * z) in
  let ow := round_half_even (inject_Z (width a) * z) in
  if ((oh <? 0) || (ow <? 0))%Z then Raise ValueError
  else Ok (resample a oh ow).

(** [a[r0:r1, c0:c1]] *)
Definition slice2 (a : array) (r0 r1 c0 c1 : Z) : array :=
  map (fun row => slice row c0 c1) (slice a r0 r1).

Definition same_lengths (a b : array) : bool :=
  (List.length a =? List.length b)%nat &&
  forallb (fun p => (List.length (fst p) =? List.length (snd p))%nat)
          (combine a b).

(** [l[i:j] = v] for [v] of the length of the slice. *)
Definition splice {X} (l : list X) (i j : Z) (v : list X) : list X :=
  let n := Z.of_nat (List.length l) in
  let a := Z.to_nat (slice_bound n i) in
  let b := Z.to_nat (slice_bound n j) in
  firstn a l ++ v ++ skipn (Nat.max a b) l.

(** [out[r0:r1, c0:c1] = v]: the shapes must agree. *)
Definition assign2 (out : array) (r0 r1 c0 c1 : Z) (v : array) : result array :=
  if same_lengths (slice2 out r0 r1 c0 c1) v
  then Ok (splice out r0 r1
                  (map2 (fun row vrow => splice row c0 c1 vrow) (slice out r0 r1) v))
  else Raise ValueError.

Definition clipped_zoom (img : array) (zoom_factor : Q) : result array :=
  let h := height img in
  let w := width img in
  match (zoom_factor ?= 1)%Q with
  | Lt =>
      (* Zooming out *)
      let zh := round_half_even (inject_Z h * zoom_factor) in
      let zw := round_half_even (inject_Z w * zoom_factor) in
      let top := ((h - zh) / 2)%Z in
      let left := ((w - zw) / 2)%Z in
      let out := map (map (fun _ => zero)) img in
      match zoom img zoom_factor with
      | Raise e => Raise e
      | Ok zoomed => assign2 out top (top + zh) left (left + zw) zoomed
      end
  | Gt =>
      (* Zooming in *)
      let zh := round_half_even (inject_Z h / zoom_factor) in
      let zw := round_half_even (inject_Z w / zoom_factor) in
      let top := ((h - zh) / 2)%Z in
      let left := ((w - zw) / 2)%Z in
      match zoom (slice2 img top (top + zh) left (left + zw)) zoom_factor with
      | Raise e => Raise e
      | Ok out =>
          let trim_top := ((height out - h) / 2)%Z in
          let trim_left := ((width out - w) / 2)%Z in
          Ok (slice2 out trim_top (trim_top + h) trim_left (trim_left + w))
      end
  | Eq => Ok img
  end.

End ClippedZoom.

(** Order-0 interpolation, to run [clipped_zoom] on examples: output entry
    [i] of a dimension of [n] entries stretched to [m] is input entry
    [i * n / m]. *)
Definition pick {X} (l : list X) (m : Z) : list X :=
  flat_map (fun i => match nth_error l (Z.to_nat (i * Z.of_nat (List.length l) / m)) with
                     | Some x => [x]
                     | None => []
                     end)
           (range m).

Definition nearest {A} (a : list (list A)) (oh ow : Z) : list (list A) :=
  map (fun row => pick row ow) (pick a oh).

End DeepDream.

(* ================================================================== *)
(** * A small world to run the program in *)
(* ================================================================== *)

Module Sample.
Import Py Numeric Torch World VideoUtils DeepDream.
Local Open Scope string_scope.

(** Helpers that leave images alone, around a network whose loss gradient
    at the input is [g]. *)
Definition sample_utils (g : tensor -> tensor) : utils :=
  {| parse_input_file := fun name => name;
     load_image := fun _ _ => [[[Fin 0]]];
     random_uniform := fun _ _ => [[[Fin 0]]];
     pre_process_numpy_img := fun img => img;
     post_process_numpy_img := fun img => img;
     get_new_shape := fun _ base_shape _ => base_shape;
     cv_resize := fun img _ => img;
     pad_image_to_shape := fun img _ => img;
     extract_original_from_padded := fun img _ => img;
     pytorch_input_adapter := fun img => img;
     pytorch_output_adapter := fun t => t;
     loss_gradient := fun _ fed _ => g (fst fed);
     CascadeGaussianSmoothing := fun _ _ grad => grad;
     save_and_maybe_display_image := fun _ _ _ => "out.jpg";
     transform_frame := fun _ frame => frame;
     linear_blend := fun _ frame _ => frame;
     FixedImageResolutionClasses := [];
     SUPPORTED_IMAGE_FORMATS := [".jpg"; ".jpeg"; ".png"; ".bmp"];
     OUT_VIDEOS_PATH := "data/out-videos";
     UPPER_IMAGE_BOUND := fun _ => 2%R;
     LOWER_IMAGE_BOUND := fun _ => (-2)%R |}.

(** A gradient that differs between two entries, and one that vanishes. *)
Definition two_valued (_ : tensor) : tensor := [[[Fin 1; Fin (-1)]]].
Definition vanishing (t : tensor) : tensor := zeros_like t.

Definition sample_env : env :=
  {| which := fun cmd => Some ("/usr/bin/" ++ cmd);
     cap_fps := fun _ => 30 # 1;
     listdir := fun _ => ["frame_000002.jpg"; "frame_000001.jpg"];
     glob_jpg := fun _ => [];
     random_raw := fun n => Z.of_nat n |}.

Definition sample_model : model :=
  {| class_name := "Vgg16Experimental";
     layer_names := ["relu3_3"; "relu4_1"; "relu4_2"] |}.

Definition sample_config : config :=
  {| input := "figures.jpg";
     input_name := "figures.jpg";
     img_dimensions := None;
     layers_to_use := ["relu4_1"];
     text_prompt := "Triangles";
     model_name := "VGG16_EXPERIMENTAL";
     pretrained_weights := "IMAGENET";
     pyramid_size := 3;
     pyramid_ratio := (18 / 10)%R;
     num_gradient_ascent_iterations := 10;
     lr := (9 / 100)%R;
     create_ouroboros := true;
     ouroboros_length := 30;
     fps := 5;
     frame_transform := "ZOOM_ROTATE";
     blend := Some (85 / 100)%R;
     create_from_noise := None;
     spatial_shift_size := 32;
     smoothing_coefficient := (1 / 2)%R;
     use_noise := false;
     dump_dir := "data/out-videos/VGG16_EXPERIMENTAL_IMAGENET" |}.

(** A tensor of two entries to run a step on. *)
Definition two_entries : variable :=
  {| data := [[[Fin 0%R; Fin 0%R]]]; grad := None |}.

(** A 10 x 10 array, entry [(i, j)] holding [10 * i + j]. *)
Definition ten_by_ten : list (list Z) :=
  map (fun i => map (fun j => (10 * i + j)%Z) (range 10)) (range 10).

End Sample.

(* ================================================================== *)
(** * More worlds to run the program in *)
(* ================================================================== *)

Module Cases.
Import Py Numeric Torch World VideoUtils DeepDream Sample.
Local Open Scope string_scope.

(** A machine without ffmpeg, and one where ffmpeg left no frame. *)
Definition no_ffmpeg_env : env :=
  {| which := fun _ => None;
     cap_fps := cap_fps sample_env;
     listdir := listdir sample_env;
     glob_jpg := glob_jpg sample_env;
     random_raw := random_raw sample_env |}.

Definition empty_dir_env : env :=
  {| which := which sample_env;
     cap_fps := cap_fps sample_env;
     listdir := fun _ => [];
     glob_jpg := glob_jpg sample_env;
     random_raw := random_raw sample_env |}.

(** The sample configuration with another input name, ouroboros length
    and noise flag. *)
Definition ouroboros_config (name : string) (length : Z) (noise : bool) : config :=
  {| input := name;
     input_name := name;
     img_dimensions := img_dimensions sample_config;
     layers_to_use := layers_to_use sample_config;
     text_prompt := text_prompt sample_config;
     model_name := model_name sample_config;
     pretrained_weights := pretrained_weights sample_config;
     pyramid_size := pyramid_size sample_config;
     pyramid_ratio := pyramid_ratio sample_config;
     num_gradient_ascent_iterations := num_gradient_ascent_iterations sample_config;
     lr := lr sample_config;
     create_ouroboros := true;
     ouroboros_length := length;
     fps := fps sample_config;
     frame_transform := frame_transform sample_config;
     blend := blend sample_config;
     create_from_noise := None;
     spatial_shift_size := spatial_shift_size sample_config;
     smoothing_coefficient := smoothing_coefficient sample_config;
     use_noise := noise;
     dump_dir := dump_dir sample_config |}.

(** The sample configuration with other sizes of the pyramid, of the
    inner loop and of the random shift. *)
Definition sized_config (levels iterations shift : Z) : config :=
  {| input := input sample_config;
     input_name := input_name sample_config;
     img_dimensions := img_dimensions sample_config;
     layers_to_use := layers_to_use sample_config;
     text_prompt := text_prompt sample_config;
     model_name := model_name sample_config;
     pretrained_weights := pretrained_weights sample_config;
     pyramid_size := levels;
     pyramid_ratio := pyramid_ratio sample_config;
     num_gradient_ascent_iterations := iterations;
     lr := lr sample_config;
     create_ouroboros := create_ouroboros sample_config;
     ouroboros_length := ouroboros_length sample_config;
     fps := fps sample_config;
     frame_transform := frame_transform sample_config;
     blend := blend sample_config;
     create_from_noise := create_from_noise sample_config;
     spatial_shift_size := shift;
     smoothing_coefficient := smoothing_coefficient sample_config;
     use_noise := use_noise sample_config;
     dump_dir := dump_dir sample_config |}.

End Cases.

(* ================================================================== *)
(** * utils/video_utils.py: frame names and gifs *)
(* ================================================================== *)

Module Frames.
Import Py World.
Local Open Scope py_scope.
Local Open Scope string_scope.

(** ** The patterns of [re] the program uses

    A literal character, a character range [[lo-hi]], a sequence, and a
    counted repetition [r{n}]. *)
Inductive regex : Type :=
| Lit (c : ascii)
| Class (lo hi : ascii)
| Cat (r1 r2 : regex)
| Times (n : nat) (r : regex).

Definition in_class (lo hi c : ascii) : bool :=
  ((nat_of_ascii lo <=? nat_of_ascii c) && (nat_of_ascii c <=? nat_of_ascii hi))%nat.

(** What is left of [s] after each way of matching [r] at its start. *)
Fixpoint run (r : regex) (s : string) : list string :=
  match r with
  | Lit c =>
      match s with
      | String c' s' => if Ascii.eqb c c' then [s'] else []
      | EmptyString => []
      end
  | Class lo hi =>
      match s with
      | String c s' => if in_class lo hi c then [s'] else []
      | EmptyString => []
      end
  | Cat r1 r2 => flat_map (run r2) (run r1 s)
  | Times n r' => Nat.iter n (flat_map (run r')) [s]
  end.

(** [re.fullmatch(r, s) is not None] *)
Definition fullmatch (r : regex) (s : string) : bool :=
  existsb (String.eqb "") (run r s).

(** ** valid_frames *)

(** [re.compile(r'[0-9]{6}\.jpg')] *)
Definition frame_pattern : regex :=
  Cat (Times 6 (Class "0" "9"))
      (Cat (Lit ".") (Cat (Lit "j") (Cat (Lit "p") (Lit "g")))).

Definition valid_frame_name (str : string) : bool :=
  fullmatch frame_pattern str.

Definition valid_frames (E : env) (input_dir : string) : list string :=
  let candidate_frames := sorted (listdir E input_dir) in
  let valid_frames := filter valid_frame_name candidate_frames in
  valid_frames.

(** An ASCII digit. *)
Definition is_digit (c : ascii) : bool := in_class "0" "9" c.

(** The order [sorted] sorts strings by. *)
Definition string_le (a b : string) : Prop := String.leb a b = true.

(** ** create_gif *)

(** [s.rfind(c)]: the last position of [c], or -1. *)
Fixpoint rfind_from (c : ascii) (s : string) (i : Z) (last : Z) : Z :=
  match s with
  | EmptyString => last
  | String c' s' => rfind_from c s' (i + 1) (if Ascii.eqb c c' then i else last)
  end.

Definition rfind (c : ascii) (s : string) : Z := rfind_from c s 0 (-1).

(** [all(ch == c for ch in s)] *)
Fixpoint all_chars (c : ascii) (s : string) : bool :=
  match s with
  | EmptyString => true
  | String c' s' => Ascii.eqb c c' && all_chars c s'
  end.

(** [os.path.splitext]: the extension starts at the last dot of the last
    path component, unless that component consists of leading dots up to
    it. *)
Definition splitext (p : string) : string * string :=
  let sepIndex := rfind "/" p in
  let dotIndex := rfind "." p in
  if (dotIndex >? sepIndex)%Z then
    let filenameIndex := Z.to_nat (sepIndex + 1) in
    let leading := substring filenameIndex (Z.to_nat dotIndex - filenameIndex) p in
    if all_chars "." leading then (p, "")
    else (substring 0 (Z.to_nat dotIndex) p,
          substring (Z.to_nat dotIndex) (String.length p - Z.to_nat dotIndex) p)
  else (p, "").

(** What [create_gif] asks of imageio. *)
Inductive gif_event : Type :=
| Imread (frame_path : string)
| Mimwrite (out_path : string) (frame_paths : list string) (fps : Z).

(** [imageio.mimwrite(out_path, images, fps=10)]: an empty sequence of
    images is refused with [ValueError] and nothing is written. *)
Definition mimwrite (out_path : string) (images : list string) (fps : Z)
  : M nat gif_event unit :=
  match images with
  | [] => raise ValueError
  | _ :: _ => emit (Mimwrite out_path images fps)
  end.

Definition create_gif (E : env) (frames_dir out_path : string)
  : M nat gif_event unit :=
  assert (String.eqb (lower (snd (splitext out_path))) ".gif") ;;;
  let frame_paths :=
    map (fun frame_name => path_join frames_dir frame_name)
        (filter (fun frame_name => endswith frame_name ".jpg")
                (sorted (listdir E frames_dir))) in
  images <- for_loop frame_paths
                     (fun frame_path (images : list string) =>
                        emit (Imread frame_path) ;;;
                        ret (images ++ [frame_path])%list)
                     [] ;;
  mimwrite out_path images 10.

End Frames.

(* ================================================================== *)
(** * deepdream.py: rotation helpers *)
(* ================================================================== *)

Module Rotation.
Import Py Numeric World DeepDream.
Local Open Scope R_scope.

(** [x / y] on floats, in exact arithmetic: Python raises
    [ZeroDivisionError] on a zero divisor. *)
Definition ZeroDivisionError : exn := Exception_ "float division by zero".

Definition pydiv (x y : R) : result R :=
  if Req_dec_T y 0 then Raise ZeroDivisionError else Ok (x / y).

Definition pair_of (a b : result R) : result (R * R) :=
  match a with
  | Raise e => Raise e
  | Ok x => match b with
            | Raise e => Raise e
            | Ok y => Ok (x, y)
            end
  end.

Definition Rleb (x y : R) : bool := if Rle_dec x y then true else false.
Definition Rltb (x y : R) : bool := if Rlt_dec x y then true else false.
Definition Rgeb (x y : R) : bool := if Rge_dec x y then true else false.

Definition rotatedRectWithMaxArea (w h angle : R) : result (R * R) :=
  if Rleb w 0 || Rleb h 0 then Ok (0, 0)
  else
    let width_is_longer := Rgeb w h in
    let side_long := if width_is_longer then w else h in
    let side_short := if width_is_longer then h else w in
    let sin_a := Rabs (sin angle) in
    let cos_a := Rabs (cos angle) in
    if Rleb side_short (2 * sin_a * cos_a * side_long)
       || Rltb (Rabs (sin_a - cos_a)) (1 / 10000000000)
    then
      (* half constrained case *)
      let x := (5 / 10) * side_short in
      if width_is_longer
      then pair_of (pydiv x sin_a) (pydiv x cos_a)
      else pair_of (pydiv x cos_a) (pydiv x sin_a)
    else
      (* fully constrained case *)
      let cos_2a := cos_a * cos_a - sin_a * sin_a in
      pair_of (pydiv (w * cos_a - h * sin_a) cos_2a)
              (pydiv (h * cos_a - w * sin_a) cos_2a).

(** [int(x)] of a float: truncation towards zero. *)
Definition int_of_real (x : R) : Z :=
  if Rle_dec 0 x then Int_part x else (- Int_part (- x))%Z.

(** What [rotate_bound] asks of OpenCV: the 2 x 3 matrix of a rotation
    about a centre, and the warp of an image by such a matrix into an
    output of a given [(width, height)]. *)
Definition matrix : Type := (R * R * R) * (R * R * R).

Record opencv : Type := {
  getRotationMatrix2D : Z * Z -> R -> R -> matrix;
  warpAffine : image -> matrix -> Z * Z -> image
}.

Definition rotate_bound (CV : opencv) (image : image) (angle : R) : World.image :=
  let h := height image in
  let w := width image in
  let cX := (w / 2)%Z in
  let cY := (h / 2)%Z in
  let M := getRotationMatrix2D CV (cX, cY) (- angle) 1 in
  let '((m00, m01, m02), (m10, m11, m12)) := M in
  let cos := Rabs m00 in
  let sin := Rabs m01 in
  let nW := int_of_real (IZR h * sin + IZR w * cos) in
  let nH := int_of_real (IZR h * cos + IZR w * sin) in
  let m02 := m02 + (IZR nW / 2 - IZR cX) in
  let m12 := m12 + (IZR nH / 2 - IZR cY) in
  warpAffine CV image ((m00, m01, m02), (m10, m11, m12)) (nW, nH).

(** [math.radians] *)
Definition radians (angle : R) : R := angle * PI / 180.

Definition rotate_max_area (CV : opencv) (image : image) (angle : R)
           (shift : Z * Z) : result World.image :=
  match rotatedRectWithMaxArea (IZR (width image)) (IZR (height image))
                               (radians angle) with
  | Raise e => Raise e
  | Ok (wr, hr) =>
      let rotated := rotate_bound CV image angle in
      let h := height rotated in
      let w := width rotated in
      let y1 := (h / 2 - int_of_real (hr / 2) + fst shift)%Z in
      let y2 := (y1 + int_of_real hr)%Z in
      let x1 := (w / 2 - int_of_real (wr / 2) + snd shift)%Z in
      let x2 := (x1 + int_of_real wr)%Z in
      Ok (slice2 rotated y1 y2 x1 x2)
  end.

End Rotation.

(* ================================================================== *)
(** * deepdream.py: the video from noise *)
(* ================================================================== *)

Module Noise.
Import Py Numeric Torch World VideoUtils DeepDream Rotation.
Local Open Scope py_scope.
Local Open Scope string_scope.

(** Lines 322-351: one frame of the video from noise.  The locals carried
    round the loop are [last_img] and [frame].  [utils.linear_blend] is
    not part of the sources; handed [None] for an image it is taken to
    raise [TypeError] (the dream call returns [None] for every frame or for
    none, so that this happens in no run). *)
Definition noise_frame (E : env) (U : utils) (CV : opencv) (model : model)
           (config : config) (frame_id : Z) (locals : option image * image)
  : prog (option image * image) :=
  let last_img := fst locals in
  let frame := snd locals in
  frame <- lift (rotate_max_area CV frame (25 / 100) (5, 5)%Z) ;;
  let frame := cv_resize U frame (1280, 720)%Z in
  emit (Dream (Some frame)) ;;;
  dreamed_frame <- from_noise_call E U model config frame ;;
  frame <- match blend config, last_img with
           | Some coefficient, Some last_img =>
               emit (Blend frame_id) ;;;
               match dreamed_frame with
               | Some dreamed => ret (linear_blend U last_img dreamed coefficient)
               | None => raise TypeError
               end
           | _, _ => ret frame
           end ;;
  let last_img := dreamed_frame in
  let dump_path := save_and_maybe_display_image U config dreamed_frame (Some frame_id) in
  emit (Save (Some frame_id) dreamed_frame) ;;;
  ret (last_img, frame).

(** [fetch_and_prepare_model] is the helper of utils/utils.py that loads
    the network named by the configuration. *)
Definition deep_dream_video_from_noise (E : env) (U : utils) (CV : opencv)
           (fetch_and_prepare_model : string -> string -> model)
           (config : config) (num_frames : Z) : prog World.config :=
  let video_path := parse_input_file U (input config) in
  let tmp_input_dir := path_join (OUT_VIDEOS_PATH U) "tmp_input" in
  let tmp_output_dir := path_join (OUT_VIDEOS_PATH U) "tmp_out" in
  let config := set_dump_dir config tmp_output_dir in
  emit (Makedirs tmp_input_dir) ;;;
  emit (Makedirs tmp_output_dir) ;;;
  metadata <- extract_frames E video_path tmp_input_dir ;;
  let model := fetch_and_prepare_model (model_name config)
                                        (pretrained_weights config) in
  frame <- (fun n => (Ok (random_uniform U n [720; 1280; 3]%Z), S n, [])) ;;
  locals <- for_loop (range num_frames)
                     (noise_frame E U CV model config) (None, frame) ;;
  let frame := snd locals in
  let config := set_img_dimensions config (shape frame) in
  create_video_from_intermediate_results E config ;;;
  emit (Rmtree tmp_input_dir) ;;;
  ret config.

(** What a run shows of its frames: the dream calls, the blends, and the
    saves with whether an image was saved. *)
Inductive mark : Type :=
| Dreamt
| Blended (frame_id : Z)
| Saved (name_modifier : option Z) (has_image : bool).

Definition mark_of (ev : event) : list mark :=
  match ev with
  | Dream _ => [Dreamt]
  | Blend frame_id => [Blended frame_id]
  | Save name_modifier (Some _) => [Saved name_modifier true]
  | Save name_modifier None => [Saved name_modifier false]
  | _ => []
  end.

Definition marks (evs : list event) : list mark := flat_map mark_of evs.

(** The frame the next iteration starts from (line 338). *)
Definition next_frame (U : utils) (config : config) (last_img : option image)
           (frame : image) (dreamed_frame : option image) : image :=
  match blend config, last_img, dreamed_frame with
  | Some coefficient, Some last_img, Some dreamed =>
      linear_blend U last_img dreamed coefficient
  | _, _, _ => frame
  end.

(** A stand-in for OpenCV that leaves images alone, and a loader. *)
Definition sample_opencv : opencv :=
  {| getRotationMatrix2D := fun _ _ _ => ((1, 0, 0), (0, 1, 0))%R;
     warpAffine := fun image _ _ => image |}.

Definition sample_fetch (model_name pretrained_weights : string) : model :=
  Sample.sample_model.

Definition unknown_layers_fetch (model_name pretrained_weights : string) : model :=
  {| class_name := "Vgg16Experimental"; layer_names := ["relu3_3"] |}.

End Noise.

(* ================================================================== *)
(** * deepdream.py: the choice of the mode *)
(* ================================================================== *)

Module Main.
Import Py Numeric Torch World VideoUtils DeepDream Rotation Noise.
Local Open Scope py_scope.
Local Open Scope string_scope.

(** [config['create_from_noise'] == 'True'] *)
Definition is_True (value : option string) : bool :=
  match value with
  | Some s => String.eqb s "True"
  | None => false
  end.

(** Lines 431-446, the end of the main block: the mode is chosen from the
    configuration.  [SUPPORTED_VIDEO_FORMATS] is a constant of
    utils/constants.py. *)
Definition dispatch (E : env) (U : utils) (CV : opencv)
           (fetch_and_prepare_model : string -> string -> model)
           (SUPPORTED_VIDEO_FORMATS : list string) (config : config)
  : prog unit :=
  if is_True (create_from_noise config) then
    deep_dream_video_from_noise E U CV fetch_and_prepare_model config 1000 ;;;
    ret tt
  else if create_ouroboros config then
    deep_dream_video_ouroboros E U config ;;;
    ret tt
  else if existsb (fun video_ext => endswith (lower (input_name config)) video_ext)
                  SUPPORTED_VIDEO_FORMATS then
    deep_dream_video E U config ;;;
    ret tt
  else
    static_image_mode E U config.

(** The calls that make or keep a dreamed image. *)
Definition dreams_or_saves (ev : event) : bool :=
  match ev with
  | Resize _ _ | GradientAscent _ _ | Save _ _ => true
  | _ => false
  end.

End Main.

(* ================================================================== *)
(** * deepdream.py: the random shifts of a run *)
(* ================================================================== *)

Module Jitter.
Import World.

(** The offsets of a shift, or of its undoing, lie within [size] pixels. *)
Definition offsets_within (size : Z) (ev : event) : Prop :=
  match ev with
  | Shift h_shift w_shift | Undo h_shift w_shift =>
      (- size <= h_shift <= size)%Z /\ (- size <= w_shift <= size)%Z
  | _ => True
  end.

(** The shifts of a run and what undoes each, in the order of the calls. *)
Definition shifts (evs : list event) : list (Z * Z) :=
  flat_map (fun ev => match ev with
                      | Shift h_shift w_shift => [(h_shift, w_shift)]
                      | _ => []
                      end) evs.

Definition undone (evs : list event) : list (Z * Z) :=
  flat_map (fun ev => match ev with
                      | Undo h_shift w_shift => [(h_shift, w_shift)]
                      | _ => []
                      end) evs.

End Jitter.

(* ================================================================== *)
(** * Properties *)
(* ================================================================== *)

Module Properties.
Import Py Numeric Torch World VideoUtils DeepDream Sample.
Local Open Scope string_scope.
Local Open Scope list_scope.

Unset Implicit Arguments.

(** ** Running computations *)

Lemma bind_ok {S E A B} {c : M S E A} (k : A -> M S E B) {s a s' evs} :
  c s = (Ok a, s', evs) ->
  bind c k s = (let '(r, s'', evs') := k a s' in (r, s'', evs ++ evs')).
Proof.
  intros H. unfold bind. rewrite H. destruct (k a s') as [[r s''] evs']. reflexivity.
Qed.

Lemma bind_emit {S E B} (ev : E) (k : unit -> M S E B) s :
  bind (emit ev) k s = (let '(r, s', evs) := k tt s in (r, s', ev :: evs)).
Proof. unfold bind, emit. destruct (k tt s) as [[r s'] evs]. reflexivity. Qed.

(** ** The call sites of deep_dream_static_image *)

(** X1: every call the three modes make to
    [deep_dream_static_image] -- line 142 (ouroboros), line 186 (video) and
    line 444 (static image) -- fails to bind the parameters
    [(model, config, img)] and raises [TypeError] before the body runs, so
    no mode obtains a dreamed image (the video mode of the sample world
    stops at its first frame); only the call of line 333
    ([deep_dream_video_from_noise]) passes the model and reaches the
    body. *)
Theorem mode_calls_raise_type_error :
  forall (E : env) (U : utils) (config : config) (frame : option image)
         (img : image) (model : model) (n : nat),
    ouroboros_call E U config frame n = (Raise TypeError, n, []) /\
    video_call E U config img n = (Raise TypeError, n, []) /\
    static_call E U config n = (Raise TypeError, n, []) /\
    static_image_mode E U config n = (Raise TypeError, n, []) /\
    deep_dream_video sample_env (sample_utils two_valued) sample_config 0%nat
    = (Raise TypeError, 0%nat,
       [Makedirs "data/out-videos/tmp_input"; Makedirs "data/out-videos/tmp_out";
        Subprocess ["ffmpeg"; "-i"; "figures.jpg"; "-r"; "30";
                    "-loglevel"; "warning";
                    "data/out-videos/tmp_input/frame_%6d.jpg"];
        LoadFrame 0 "frame_000001.jpg"; Dream (Some [[[Fin 0%R]]])]) /\
    from_noise_call E U model config img n
    = deep_dream_static_image E U model config (Some img) n.
Proof.
  intros E U config frame img model n.
  repeat split; try reflexivity.
  unfold from_noise_call, call_deep_dream_static_image.
  cbn [bind_args bind_positional bind_keywords deep_dream_static_image_params].
  unfold bind, lift. cbn.
  destruct (deep_dream_static_image E U model config (Some img) n) as [[r s] evs].
  reflexivity.
Qed.

(** ** Layer lookup *)

Lemma index_absent (x : string) (l : list string) :
  ~ In x l -> index x l = Raise ValueError.
Proof.
  induction l as [|y l IH]; intros Hx; [reflexivity|].
  cbn [index]. destruct (String.eqb_spec y x) as [->|Hne].
  - exfalso. apply Hx. now left.
  - rewrite IH; [reflexivity|]. intros Hin. apply Hx. now right.
Qed.

Lemma index_present (x : string) (l : list string) :
  In x l -> exists i, index x l = Ok i.
Proof.
  induction l as [|y l IH]; intros Hx; [destruct Hx|].
  cbn [index]. destruct (String.eqb_spec y x) as [->|Hne].
  - now exists 0%Z.
  - destruct Hx as [Hx|Hx]; [congruence|].
    destruct (IH Hx) as [i ->]. now exists (i + 1)%Z.
Qed.

Lemma layer_ids_absent (names layers : list string) (x : string) :
  In x layers -> ~ In x names -> exists e, layer_ids names layers = Raise e.
Proof.
  induction layers as [|y layers IH]; intros Hin Hx; [destruct Hin|].
  cbn [layer_ids]. destruct Hin as [->|Hin].
  - rewrite (index_absent _ _ Hx). now exists ValueError.
  - destruct (index y names) as [i|e]; [|now exists e].
    destruct (IH Hin Hx) as [e ->]. now exists e.
Qed.

Lemma layer_ids_present (names layers : list string) :
  (forall x, In x layers -> In x names) -> exists ids, layer_ids names layers = Ok ids.
Proof.
  induction layers as [|y layers IH]; intros H; [now exists []|].
  cbn [layer_ids].
  destruct (index_present y names (H y (or_introl eq_refl))) as [i ->].
  destruct IH as [ids ->]; [intros x Hx; apply H; now right|].
  now exists (i :: ids).
Qed.

(** C9: when a layer to use is not among the model's layer names (the
    lookup of line 74 raises), [deep_dream_static_image] returns [None]
    having drawn no random number and made no call: no pyramid level is
    resized and no gradient ascent step is taken. *)
Theorem invalid_layer_returns_none :
  forall (E : env) (U : utils) (model : model) (config : config)
         (img : option image) (n : nat) (layer_name : string),
    In layer_name (layers_to_use config) ->
    ~ In layer_name (layer_names model) ->
    deep_dream_static_image E U model config img n = (Ok None, n, []).
Proof.
  intros E U model config img n x Hin Hx.
  unfold deep_dream_static_image.
  destruct (layer_ids_absent (layer_names model) _ _ Hin Hx) as [e ->].
  reflexivity.
Qed.

Lemma invalid_layer_returns_none_witness :
  deep_dream_static_image sample_env (sample_utils two_valued)
    {| class_name := "Vgg16Experimental"; layer_names := ["relu3_3"] |}
    sample_config None 0%nat
  = (Ok None, 0%nat, []).
Proof.
  apply (invalid_layer_returns_none _ _ _ _ _ _ "relu4_1").
  - cbn. now left.
  - cbn. intros [H|[]]. discriminate H.
Defined.

(** ** extract_frames *)

(** C8: [extract_frames] raises exactly when [shutil.which] finds no
    ffmpeg; when it finds one, it calls the tool once, on the arguments of
    line 61, and returns the metadata holding the frame pattern and the
    frame rate read from the video. *)
Theorem extract_frames_raises_iff_no_ffmpeg :
  forall (E : env) (video_path dump_dir : string) (n : nat),
    let out_frame_pattern := path_join dump_dir "frame_%6d.jpg" in
    let fps := int_of_float (cap_fps E video_path) in
    (is_ok (outcome (extract_frames E video_path dump_dir n)) = false
     <-> found E "ffmpeg" = false) /\
    (found E "ffmpeg" = false
     <-> (which E "ffmpeg" = None \/ which E "ffmpeg" = Some "")) /\
    extract_frames E video_path dump_dir n
    = if found E "ffmpeg"
      then (Ok {| pattern := out_frame_pattern; video_fps := fps |}, n,
            [Subprocess ["ffmpeg"; "-i"; video_path; "-r"; str_of_int fps;
                         "-loglevel"; "warning"; out_frame_pattern]])
      else (Raise (Exception_ "ffmpeg not found in the system path, aborting."),
            n, []).
Proof.
  intros E video_path dump_dir n out_frame_pattern fps.
  assert (Hrun : extract_frames E video_path dump_dir n
    = if found E "ffmpeg"
      then (Ok {| pattern := out_frame_pattern; video_fps := fps |}, n,
            [Subprocess ["ffmpeg"; "-i"; video_path; "-r"; str_of_int fps;
                         "-loglevel"; "warning"; out_frame_pattern]])
      else (Raise (Exception_ "ffmpeg not found in the system path, aborting."),
            n, [])).
  { unfold extract_frames. destruct (found E "ffmpeg"); reflexivity. }
  split; [|split; [|exact Hrun]].
  - rewrite Hrun. destruct (found E "ffmpeg"); cbn; split; congruence.
  - unfold found. destruct (which E "ffmpeg") as [path|].
    + destruct (String.eqb_spec path "") as [->|Hne]; cbn.
      * split; auto.
      * split; [discriminate|]. intros [H|H]; [discriminate|congruence].
    + split; auto.
Qed.

(** ** The ouroboros mode *)

(** C7 (as the code has it): the first ouroboros iteration calls
    [deep_dream_static_image(config, frame)] and stops there with a
    [TypeError]: no frame is saved or transformed and no video is
    assembled, for the sample configuration (30 iterations asked) and for
    every configuration with a supported image name that asks for at least
    one iteration. *)
Theorem ouroboros_stops_at_first_call :
  deep_dream_video_ouroboros sample_env (sample_utils two_valued) sample_config 0%nat
  = (Raise TypeError, 0%nat, [Dream (Some [[[Fin 0]]])]) /\
  forall (E : env) (U : utils) (config : config) (n : nat),
    existsb (fun img_ext => endswith (lower (input_name config)) img_ext)
            (SUPPORTED_IMAGE_FORMATS U) = true ->
    (0 < ouroboros_length config)%Z ->
    exists frame,
      deep_dream_video_ouroboros E U config n = (Raise TypeError, n, [Dream frame]).
Proof.
  assert (Hgen : forall (E : env) (U : utils) (config : config) (n : nat),
    existsb (fun img_ext => endswith (lower (input_name config)) img_ext)
            (SUPPORTED_IMAGE_FORMATS U) = true ->
    (0 < ouroboros_length config)%Z ->
    exists frame,
      deep_dream_video_ouroboros E U config n = (Raise TypeError, n, [Dream frame])).
  { intros E U config n Hext Hlen.
    unfold deep_dream_video_ouroboros, deep_dream_video_ouroboros_with.
    rewrite Hext. unfold range.
    destruct (Z.to_nat (ouroboros_length config)) as [|m] eqn:Hm; [lia|].
    eexists. cbn. reflexivity. }
  split; [|exact Hgen].
  destruct (Hgen sample_env (sample_utils two_valued) sample_config 0%nat)
    as [frame Hrun]; [reflexivity|reflexivity|].
  rewrite Hrun. unfold deep_dream_video_ouroboros, deep_dream_video_ouroboros_with in Hrun.
  cbn in Hrun. injection Hrun as <-. reflexivity.
Qed.

(** ** clipped_zoom *)

(** C10 (as the code has it): zooming a 10 x 10 array in by a factor of
    3 crops 3 x 3 entries, which zoom to 9 x 9, fewer than 10; the trim
    offset is then [-1] and the slice [[-1:9]] keeps one row and one
    column: the result is 1 x 1, not 10 x 10, with the order-0 interpolation
    and with any other that answers with 9 rows of 9 entries.  A zoom
    factor of 1 does return the input array itself. *)
Theorem clipped_zoom_in_shrinks :
  exists out,
    clipped_zoom 0%Z nearest ten_by_ten 3 = Ok out /\
    (height ten_by_ten, width ten_by_ten) = (10, 10)%Z /\
    (height out, width out) = (1, 1)%Z /\
    (forall (resample : list (list Z) -> Z -> Z -> list (list Z)),
        let zoomed := resample (slice2 ten_by_ten 3 6 3 6) 9%Z 9%Z in
        List.length zoomed = 9%nat ->
        Forall (fun row => List.length row = 9%nat) zoomed ->
        exists out',
          clipped_zoom 0%Z resample ten_by_ten 3 = Ok out' /\
          (height out', width out') = (1, 1)%Z) /\
    (forall (A : Type) (zero : A)
            (resample : list (list A) -> Z -> Z -> list (list A))
            (img : list (list A)),
        clipped_zoom zero resample img 1 = Ok img).
Proof.
  eexists. split; [vm_compute; reflexivity|].
  split; [reflexivity|]. split; [reflexivity|]. split; [|reflexivity].
  intros resample zoomed Hlen Hrows.
  assert (Hrun : clipped_zoom 0%Z resample ten_by_ten 3
                 = Ok (slice2 zoomed ((height zoomed - 10) / 2)
                              ((height zoomed - 10) / 2 + 10)
                              ((width zoomed - 10) / 2)
                              ((width zoomed - 10) / 2 + 10))) by reflexivity.
  rewrite Hrun. eexists. split; [reflexivity|].
  do 9 (destruct zoomed as [|? zoomed]; [discriminate Hlen|]).
  destruct zoomed; [|discriminate Hlen].
  repeat match goal with
         | H : Forall _ (_ :: _) |- _ => inversion H; clear H; subst
         end.
  repeat match goal with
         | H : List.length ?l = 9%nat |- _ =>
             do 9 (destruct l as [|? l]; [discriminate H|]);
             destruct l; [clear H|discriminate H]
         end.
  reflexivity.
Qed.

(** ** The loops of deep_dream_static_image *)

Lemma for_loop_events {S E X L T} (proj : list E -> list T) (f : X -> list T)
      (body : X -> L -> M S E L) :
  (forall a b, proj (a ++ b) = proj a ++ proj b) ->
  proj [] = [] ->
  (forall x l s, exists l' s' evs, body x l s = (Ok l', s', evs) /\ proj evs = f x) ->
  forall xs l s, exists l' s' evs,
      for_loop xs body l s = (Ok l', s', evs) /\ proj evs = flat_map f xs.
Proof.
  intros Happ Hnil Hbody xs.
  induction xs as [|x xs IH]; intros l s.
  - exists l, s, []. split; [reflexivity|exact Hnil].
  - destruct (Hbody x l s) as (l1 & s1 & evs1 & Hrun1 & Hp1).
    destruct (IH l1 s1) as (l2 & s2 & evs2 & Hrun2 & Hp2).
    exists l2, s2, (evs1 ++ evs2). split.
    + cbn [for_loop]. rewrite (bind_ok _ Hrun1), Hrun2. reflexivity.
    + rewrite Happ, Hp1, Hp2. reflexivity.
Qed.

Lemma randint_ok (E : env) (low high : Z) (n : nat) :
  (low < high)%Z ->
  randint E low high n = (Ok (low + random_raw E n mod (high - low))%Z, S n, []).
Proof.
  intros H. unfold randint. destruct (Z.ltb_spec low high); [reflexivity|lia].
Qed.

Lemma drawn_range (E : env) (s : Z) (n : nat) :
  (0 <= s)%Z -> (- s <= drawn E s n <= s)%Z.
Proof.
  intros Hs. unfold drawn.
  pose proof (Z.mod_pos_bound (random_raw E n) (s + 1 - - s)) as H. lia.
Qed.

Lemma jittered_step_run (E : env) (U : utils) config model input_text ids
      pyramid_level iteration (t : variable) (n : nat) :
  (0 <= spatial_shift_size config)%Z ->
  let h_shift := drawn E (spatial_shift_size config) n in
  let w_shift := drawn E (spatial_shift_size config) (S n) in
  jittered_step E U config model input_text ids pyramid_level iteration t n
  = (Ok (random_circular_spatial_shift
           (gradient_ascent U config model
              (random_circular_spatial_shift t h_shift w_shift false)
              input_text ids iteration)
           h_shift w_shift true),
     S (S n),
     [Shift h_shift w_shift; GradientAscent pyramid_level iteration;
      Undo h_shift w_shift]).
Proof.
  intros Hs h_shift w_shift. unfold jittered_step.
  rewrite (bind_ok _ (randint_ok E (- spatial_shift_size config)
                               (spatial_shift_size config + 1) n ltac:(lia))).
  rewrite (bind_ok _ (randint_ok E (- spatial_shift_size config)
                               (spatial_shift_size config + 1) (S n) ltac:(lia))).
  reflexivity.
Qed.

Lemma flat_map_singleton {X Y} (g : X -> Y) (l : list X) :
  flat_map (fun x => [g x]) l = map g l.
Proof. induction l as [|x l IH]; cbn; [reflexivity|now rewrite IH]. Qed.

Lemma pyramid_step_run (E : env) (U : utils) config model input_text ids
      base_shape pyramid_level (img : image) (n : nat) :
  (0 <= spatial_shift_size config)%Z ->
  exists img' n' evs,
    pyramid_step E U config model input_text ids base_shape pyramid_level img n
    = (Ok img', n', evs) /\
    filter is_step evs
    = Resize pyramid_level (get_new_shape U config base_shape pyramid_level)
        :: map (GradientAscent pyramid_level)
               (range (num_gradient_ascent_iterations config)).
Proof.
  intros Hs. unfold pyramid_step.
  set (t0 := {| data := _; grad := None |}).
  destruct (for_loop_events (filter is_step)
              (fun iteration => [GradientAscent pyramid_level iteration])
              (jittered_step E U config model input_text ids pyramid_level)
              (filter_app is_step) eq_refl) with
    (xs := range (num_gradient_ascent_iterations config)) (l := t0) (s := n)
    as (t & n' & evs & Hrun & Hevs).
  { intros iteration t s. do 3 eexists. split.
    - apply jittered_step_run, Hs.
    - reflexivity. }
  rewrite flat_map_singleton in Hevs.
  do 3 eexists. split.
  - rewrite bind_emit, (bind_ok _ Hrun). cbn. reflexivity.
  - cbn. rewrite app_nil_r, Hevs. reflexivity.
Qed.

Lemma starting_image_run (U : utils) config (img : option image) (n : nat) :
  exists img' n', starting_image U config img n = (Ok img', n', []).
Proof.
  unfold starting_image. destruct img as [img|].
  - now exists img, n.
  - destruct (use_noise config); do 2 eexists; reflexivity.
Qed.

Lemma filter_gradient_ascent_steps (evs : list event) :
  filter is_gradient_ascent (filter is_step evs) = filter is_gradient_ascent evs.
Proof.
  induction evs as [|ev evs IH]; [reflexivity|].
  destruct ev; cbn; rewrite ?IH; reflexivity.
Qed.

Lemma count_gradient_ascent (shape_of : Z -> Z * Z) (iterations levels : list Z) :
  List.length
    (filter is_gradient_ascent
       (flat_map (fun level => Resize level (shape_of level)
                                 :: map (GradientAscent level) iterations) levels))
  = (List.length levels * List.length iterations)%nat.
Proof.
  induction levels as [|level levels IH]; [reflexivity|].
  cbn [flat_map]. change (?a :: ?l ++ ?r) with ((a :: l) ++ r).
  rewrite filter_app, length_app, IH. cbn [filter is_gradient_ascent].
  replace (filter is_gradient_ascent (map (GradientAscent level) iterations))
    with (map (GradientAscent level) iterations).
  - rewrite length_map. cbn. reflexivity.
  - clear. induction iterations as [|i l IH]; cbn; [reflexivity|now rewrite <- IH].
Qed.

Lemma length_range (n : Z) : (0 <= n)%Z -> Z.of_nat (List.length (range n)) = n.
Proof. intros H. unfold range. rewrite length_map, length_seq. lia. Qed.

(** A run of [deep_dream_static_image] whose layer lookup succeeded: it
    returns the post-processed image the pyramid loop ends with, and the
    two loops make, level after level, a resize and then the gradient
    ascent steps of that level. *)
Lemma static_image_run (E : env) (U : utils) (model : model) (config : config)
      (img : option image) (n : nat) (layer_ids_to_use : list Z) :
  layer_ids (layer_names model) (layers_to_use config) = Ok layer_ids_to_use ->
  (0 <= spatial_shift_size config)%Z ->
  exists dreamed n' evs base_shape,
    deep_dream_static_image E U model config img n
    = (Ok (Some (post_process_numpy_img U dreamed)), n', evs) /\
    filter is_step evs
    = flat_map (fun pyramid_level =>
                  Resize pyramid_level
                         (get_new_shape U config base_shape pyramid_level)
                    :: map (GradientAscent pyramid_level)
                           (range (num_gradient_ascent_iterations config)))
               (range (pyramid_size config)).
Proof.
  intros Hids Hs.
  unfold deep_dream_static_image. rewrite Hids.
  destruct (starting_image_run U config img n) as (img0 & n0 & Hstart).
  set (img1 := pre_process_numpy_img U img0).
  set (base_shape := (height img1, width img1)).
  destruct (for_loop_events (filter is_step)
              (fun pyramid_level =>
                 Resize pyramid_level (get_new_shape U config base_shape pyramid_level)
                   :: map (GradientAscent pyramid_level)
                          (range (num_gradient_ascent_iterations config)))
              (pyramid_step E U config model (text_prompt config)
                            layer_ids_to_use base_shape)
              (filter_app is_step) eq_refl) with
    (xs := range (pyramid_size config)) (l := img1) (s := n0)
    as (img2 & n2 & evs & Hrun & Hevs).
  { intros level img' s. apply pyramid_step_run, Hs. }
  exists img2, n2, evs, base_shape. split; [|exact Hevs].
  rewrite (bind_ok _ Hstart). fold img1. fold base_shape.
  rewrite (bind_ok _ Hrun). cbn. rewrite app_nil_r. reflexivity.
Qed.

(** C4 (as amended): when the layer lookup succeeds and the sizes of the
    configuration are not negative, [deep_dream_static_image] returns an
    image, and its two loops make, level after level from 0 to
    [pyramid_size - 1], one resize followed by
    [num_gradient_ascent_iterations] gradient ascent steps numbered from 0:
    [pyramid_size * num_gradient_ascent_iterations] steps in all. *)
Theorem gradient_ascent_steps_count :
  forall (E : env) (U : utils) (model : model) (config : config)
         (img : option image) (n : nat) (layer_ids_to_use : list Z),
    layer_ids (layer_names model) (layers_to_use config) = Ok layer_ids_to_use ->
    (0 <= pyramid_size config)%Z ->
    (0 <= num_gradient_ascent_iterations config)%Z ->
    (0 <= spatial_shift_size config)%Z ->
    exists out n' evs base_shape,
      deep_dream_static_image E U model config img n = (Ok (Some out), n', evs) /\
      filter is_step evs
      = flat_map (fun pyramid_level =>
                    Resize pyramid_level
                           (get_new_shape U config base_shape pyramid_level)
                      :: map (GradientAscent pyramid_level)
                             (range (num_gradient_ascent_iterations config)))
                 (range (pyramid_size config)) /\
      Z.of_nat (List.length (filter is_gradient_ascent evs))
      = (pyramid_size config * num_gradient_ascent_iterations config)%Z.
Proof.
  intros E U model config img n ids Hids Hp Hi Hs.
  destruct (static_image_run E U model config img n ids Hids Hs)
    as (dreamed & n' & evs & base_shape & Hrun & Hevs).
  exists (post_process_numpy_img U dreamed), n', evs, base_shape.
  split; [exact Hrun|]. split; [exact Hevs|].
  rewrite <- filter_gradient_ascent_steps, Hevs, count_gradient_ascent.
  rewrite Nat2Z.inj_mul, !length_range by assumption. reflexivity.
Qed.

Lemma gradient_ascent_steps_count_witness :
  exists out n' evs base_shape,
    deep_dream_static_image sample_env (sample_utils two_valued) sample_model
                            sample_config None 0%nat
    = (Ok (Some out), n', evs) /\
    filter is_step evs
    = flat_map (fun pyramid_level =>
                  Resize pyramid_level
                         (get_new_shape (sample_utils two_valued) sample_config
                                        base_shape pyramid_level)
                    :: map (GradientAscent pyramid_level) (range 10))
               (range 3) /\
    Z.of_nat (List.length (filter is_gradient_ascent evs)) = (3 * 10)%Z.
Proof.
  apply (gradient_ascent_steps_count sample_env (sample_utils two_valued)
           sample_model sample_config None 0%nat [1%Z]).
  - reflexivity.
  - cbn. lia.
  - cbn. lia.
  - cbn. lia.
Defined.

(** C4 as stated fails when a size of the configuration is negative,
    although the layer lookup succeeds.  With [spatial_shift_size = -1],
    3 levels and 10 iterations, the run raises [ValueError] at its first
    draw, after one resize and without a gradient ascent step, against 30.
    With [pyramid_size = -1] and [num_gradient_ascent_iterations = -1] the
    run returns its image without a resize or a step, while the product of
    the two sizes is 1. *)
Lemma steps_count_fails_on_negative_sizes :
  layer_ids (layer_names sample_model)
            (layers_to_use (Cases.sized_config 3 10 (-1))) = Ok [1%Z] /\
  deep_dream_static_image sample_env (sample_utils two_valued) sample_model
    (Cases.sized_config 3 10 (-1)) None 0%nat
  = (Raise ValueError, 0%nat, [Resize 0 (1, 1)%Z]) /\
  (pyramid_size (Cases.sized_config 3 10 (-1))
   * num_gradient_ascent_iterations (Cases.sized_config 3 10 (-1)) = 30)%Z /\
  layer_ids (layer_names sample_model)
            (layers_to_use (Cases.sized_config (-1) (-1) 32)) = Ok [1%Z] /\
  deep_dream_static_image sample_env (sample_utils two_valued) sample_model
    (Cases.sized_config (-1) (-1) 32) None 0%nat
  = (Ok (Some [[[Fin 0%R]]]), 0%nat, []) /\
  (pyramid_size (Cases.sized_config (-1) (-1) 32)
   * num_gradient_ascent_iterations (Cases.sized_config (-1) (-1) 32) = 1)%Z.
Proof. repeat split. Qed.

(** ** Circular shifts *)









(** ** The video mode *)

Lemma bind_events {S E A B} (c : M S E A) (k : A -> M S E B) (s : S) :
  exists more, events (bind c k s) = events (c s) ++ more.
Proof.
  unfold bind. destruct (c s) as [[[a|e] s'] evs].
  - destruct (k a s') as [[r s''] evs']. now exists evs'.
  - exists []. cbn. now rewrite app_nil_r.
Qed.

Lemma video_frame_run (U : utils) (dream : config -> image -> prog (option image))
      (config : config) (dir : string) (frame_id : Z) (frame_name : string)
      (last_img prev : option image) (n : nat) :
  let frame := load_image U (path_join dir frame_name) (img_dimensions config) in
  let input := dream_input U config last_img frame in
  video_frame U dream config dir (frame_id, frame_name) (last_img, prev) n
  = match dream config input n with
    | (Ok dreamed_frame, n', evs) =>
        (Ok (dreamed_frame, Some input), n',
         LoadFrame frame_id frame_name
           :: (if blended config last_img then [Blend frame_id] else [])
           ++ Dream (Some input) :: evs ++ [Save (Some frame_id) dreamed_frame])
    | (Raise e, n', evs) =>
        (Raise e, n',
         LoadFrame frame_id frame_name
           :: (if blended config last_img then [Blend frame_id] else [])
           ++ Dream (Some input) :: evs)
    end.
Proof.
  intros frame input. unfold video_frame, input, dream_input, blended.
  cbn [fst snd]. fold frame.
  destruct (blend config) as [coefficient|], last_img as [last|];
    unfold bind, emit, ret; cbn;
    match goal with |- context [dream ?c ?f ?s] =>
      destruct (dream c f s) as [[[d|e] n'] evs] end;
    cbn; rewrite ?app_nil_r; reflexivity.
Qed.


(** ** Mean and standard deviation *)

Section Statistics.
Local Open Scope R_scope.

Lemma fsum_fin (rs : list R) : fsum (map Fin rs) = Fin (Rsum rs).
Proof.
  induction rs as [|x rs IH]; [reflexivity|].
  cbn [map fsum fold_right]. fold (fsum (map Fin rs)). rewrite IH. reflexivity.
Qed.

Lemma fsum_fin_inv (l : list fval) (s : R) :
  fsum l = Fin s -> exists rs, l = map Fin rs /\ s = Rsum rs.
Proof.
  revert s. induction l as [|a l IH]; intros s H.
  - exists []. cbn in H. injection H as <-. now split.
  - cbn [fsum fold_right] in H. fold (fsum l) in H.
    destruct a as [x|]; [|discriminate H].
    destruct (fsum l) as [y|] eqn:Hy; [|discriminate H].
    destruct (IH y eq_refl) as (rs & -> & ->).
    exists (x :: rs). cbn in H. injection H as <-. now split.
Qed.

Lemma fdiv_fin (x y : R) : y <> 0 -> fdiv (Fin x) (Fin y) = Fin (x / y).
Proof. intros H. unfold fdiv. destruct (Req_dec_T y 0); [contradiction|reflexivity]. Qed.

Lemma fdiv_fin_inv (a b : fval) (q : R) :
  fdiv a b = Fin q -> exists x y, a = Fin x /\ b = Fin y /\ y <> 0 /\ q = x / y.
Proof.
  destruct a as [x|], b as [y|]; cbn; try discriminate.
  destruct (Req_dec_T y 0); [discriminate|].
  intros H. injection H as <-. now exists x, y.
Qed.

Lemma fsqrt_fin_inv (a : fval) (s : R) :
  fsqrt a = Fin s -> exists v, a = Fin v /\ 0 <= v /\ s = sqrt v.
Proof.
  destruct a as [v|]; cbn; [|discriminate].
  destruct (Rlt_dec v 0); [discriminate|].
  intros H. injection H as <-. exists v. repeat split. lra.
Qed.

Lemma squares_nonneg (mu : R) (rs : list R) : 0 <= squares mu rs.
Proof.
  unfold squares. induction rs as [|x rs IH]; cbn; [lra|].
  pose proof (Rle_0_sqr (x - mu)) as H. unfold Rsqr in H.
  fold (Rsum (map (fun x => (x - mu) * (x - mu)) rs)). lra.
Qed.

Lemma mean_fin (rs : list R) :
  rs <> [] -> mean (map Fin rs) = Fin (Rsum rs / INR (List.length rs)).
Proof.
  intros H. unfold mean, count. rewrite fsum_fin, length_map.
  apply fdiv_fin, not_0_INR. destruct rs; [contradiction|discriminate].
Qed.

Lemma deviations_fin (mu : R) (rs : list R) :
  map (fun x => fmul (fsub x (Fin mu)) (fsub x (Fin mu))) (map Fin rs)
  = map Fin (map (fun x => (x - mu) * (x - mu)) rs).
Proof. rewrite !map_map. reflexivity. Qed.

Lemma std_fin (rs : list R) :
  (2 <= List.length rs)%nat ->
  let mu := Rsum rs / INR (List.length rs) in
  std (map Fin rs) = Fin (sqrt (squares mu rs / INR (List.length rs - 1))).
Proof.
  intros Hlen mu. unfold std.
  rewrite mean_fin by (destruct rs; [cbn in Hlen; lia|discriminate]).
  fold mu. rewrite deviations_fin, fsum_fin, length_map.
  rewrite fdiv_fin by (apply not_0_INR; lia).
  fold (squares mu rs). cbn [fsqrt].
  destruct (Rlt_dec (squares mu rs / INR (List.length rs - 1)) 0) as [Hneg|]; [|reflexivity].
  exfalso. pose proof (squares_nonneg mu rs) as Hsq.
  assert (0 < INR (List.length rs - 1)) by (apply lt_0_INR; lia).
  assert (0 <= squares mu rs / INR (List.length rs - 1)); [|lra].
  apply Rmult_le_pos; [exact Hsq|]. apply Rlt_le, Rinv_0_lt_compat. assumption.
Qed.

(** A standard deviation that is a number comes from at least two
    entries, all of them numbers. *)
Lemma std_fin_inv (l : list fval) (s : R) :
  std l = Fin s ->
  exists rs,
    l = map Fin rs /\ (2 <= List.length rs)%nat /\
    mean l = Fin (Rsum rs / INR (List.length rs)) /\
    s = sqrt (squares (Rsum rs / INR (List.length rs)) rs / INR (List.length rs - 1)).
Proof.
  intros H. unfold std in H.
  apply fsqrt_fin_inv in H. destruct H as (v & H & _ & ->).
  apply fdiv_fin_inv in H. destruct H as (x & y & Hsum & Hy & Hy0 & ->).
  injection Hy as <-.
  assert (Hlen : (2 <= List.length l)%nat).
  { destruct l as [|a [|b l]]; cbn; try lia; exfalso; apply Hy0; reflexivity. }
  destruct (mean l) as [mu|] eqn:Hmean.
  - unfold mean in Hmean. apply fdiv_fin_inv in Hmean.
    destruct Hmean as (sx & n & Hs & Hn & Hn0 & ->).
    apply fsum_fin_inv in Hs. destruct Hs as (rs & -> & ->).
    unfold count in Hn. injection Hn as <-. rewrite length_map in *.
    exists rs. split; [reflexivity|]. split; [exact Hlen|]. split; [reflexivity|].
    rewrite deviations_fin, fsum_fin in Hsum. injection Hsum as <-. reflexivity.
  - exfalso. destruct l as [|a l]; [cbn in Hlen; lia|].
    cbn in Hsum. destruct a; discriminate Hsum.
Qed.

Lemma Rsum_centred (mu c : R) (rs : list R) :
  Rsum (map (fun x => (x - mu) / c) rs) = (Rsum rs - INR (List.length rs) * mu) / c.
Proof.
  induction rs as [|x rs IH].
  - cbn. lra.
  - cbn [map Rsum fold_right List.length].
    fold (Rsum (map (fun x => (x - mu) / c) rs)). fold (Rsum rs).
    rewrite IH, S_INR. unfold Rdiv. ring.
Qed.

Lemma squares_normalized (mu c : R) (rs : list R) :
  c <> 0 ->
  squares 0 (map (fun x => (x - mu) / c) rs) = squares mu rs / (c * c).
Proof.
  intros Hc. unfold squares. induction rs as [|x rs IH].
  - cbn. unfold Rdiv. ring.
  - cbn [map Rsum fold_right].
    fold (Rsum (map (fun x => (x - 0) * (x - 0)) (map (fun x => (x - mu) / c) rs))).
    fold (Rsum (map (fun x => (x - mu) * (x - mu)) rs)).
    rewrite IH. field. exact Hc.
Qed.

(** Lines 58-61 on a list of entries: centring by the mean and dividing
    by a standard deviation that is a non-zero number gives numbers of
    mean 0 and standard deviation 1. *)
Lemma normalize_list (l : list fval) (s : R) :
  std l = Fin s -> s <> 0 ->
  exists ys,
    map (fun x => fdiv x (std l)) (map (fun x => fsub x (mean l)) l) = map Fin ys /\
    mean (map Fin ys) = Fin 0 /\
    std (map Fin ys) = Fin 1.
Proof.
  intros Hstd Hs. destruct (std_fin_inv l s Hstd) as (rs & -> & Hlen & Hmean & Hsv).
  rewrite Hstd, Hmean.
  set (n := List.length rs) in *. set (mu := Rsum rs / INR n) in *.
  assert (Hn : INR n <> 0) by (apply not_0_INR; lia).
  assert (Hn1 : 0 < INR (n - 1)) by (apply lt_0_INR; lia).
  exists (map (fun x => (x - mu) / s) rs).
  assert (Hlen' : List.length (map (fun x => (x - mu) / s) rs) = n)
    by apply length_map.
  assert (Hsum0 : Rsum (map (fun x => (x - mu) / s) rs) = 0).
  { rewrite Rsum_centred. fold n. unfold mu. field. split; assumption. }
  split; [|split].
  - rewrite !map_map. apply map_ext. intros x. unfold fsub, lift2.
    now rewrite fdiv_fin.
  - rewrite mean_fin by (destruct rs; [cbn in Hlen; lia|discriminate]).
    rewrite Hsum0, Hlen'. f_equal. field. exact Hn.
  - pose proof (std_fin (map (fun x => (x - mu) / s) rs)) as H.
    rewrite Hlen' in H. cbv zeta in H. rewrite H by exact Hlen. clear H.
    rewrite Hsum0. replace (0 / INR n) with 0 by (field; exact Hn).
    rewrite squares_normalized by exact Hs.
    assert (Hv : 0 <= squares mu rs / INR (n - 1)).
    { apply Rmult_le_pos; [apply squares_nonneg|].
      apply Rlt_le, Rinv_0_lt_compat, Hn1. }
    assert (Hss : s * s = squares mu rs / INR (n - 1))
      by (rewrite Hsv; apply sqrt_sqrt, Hv).
    rewrite Hss. f_equal. rewrite <- sqrt_1. f_equal.
    assert (Hsq : squares mu rs <> 0).
    { intros H0. apply Hs. rewrite Hsv, H0. unfold Rdiv. rewrite Rmult_0_l.
      apply sqrt_0. }
    field. split; [lra|exact Hsq].
Qed.

(** The remark made at [fdiv]: a standard deviation of zero means that
    every entry equals the mean, so the division of line 61 is 0/0. *)
Lemma std_zero_centred (l : list fval) :
  std l = Fin 0 -> forall x, In x l -> fsub x (mean l) = Fin 0.
Proof.
  intros Hstd x Hx.
  destruct (std_fin_inv l 0 Hstd) as (rs & -> & Hlen & Hmean & Hsv).
  rewrite Hmean. set (mu := Rsum rs / INR (List.length rs)) in *.
  assert (Hn1 : 0 < INR (List.length rs - 1)) by (apply lt_0_INR; lia).
  assert (Hsq : squares mu rs = 0).
  { pose proof (squares_nonneg mu rs) as Hpos.
    assert (Hv : 0 <= squares mu rs / INR (List.length rs - 1)).
    { apply Rmult_le_pos; [exact Hpos|]. apply Rlt_le, Rinv_0_lt_compat, Hn1. }
    symmetry in Hsv. apply (sqrt_eq_0 _ Hv) in Hsv.
    unfold Rdiv in Hsv. apply Rmult_integral in Hsv. destruct Hsv as [H|H]; [exact H|].
    exfalso. pose proof (Rinv_0_lt_compat _ Hn1). lra. }
  apply in_map_iff in Hx. destruct Hx as (r & <- & Hr). cbn. f_equal.
  clear Hstd Hmean Hsv Hlen Hn1. clearbody mu. unfold squares in Hsq.
  induction rs as [|y rs IH]; [destruct Hr|].
  cbn [map Rsum fold_right] in Hsq.
  fold (Rsum (map (fun x => (x - mu) * (x - mu)) rs)) in Hsq.
  pose proof (squares_nonneg mu rs) as Hrest. unfold squares in Hrest.
  pose proof (Rle_0_sqr (y - mu)) as Hy. unfold Rsqr in Hy.
  destruct Hr as [->|Hr].
  - assert (H0 : (r - mu) * (r - mu) = 0) by lra.
    apply Rmult_integral in H0. lra.
  - apply IH; [exact Hr|lra].
Qed.

End Statistics.

(** ** Tensors, entry by entry *)

Lemma flatten_tmap (f : fval -> fval) (t : tensor) :
  flatten (tmap f t) = map f (flatten t).
Proof.
  unfold flatten, tmap. rewrite map_map, concat_map, map_map.
  f_equal. apply map_ext. intros plane. symmetry. apply concat_map.
Qed.

Lemma finite_nested (t : tensor) :
  finite t <-> Forall (Forall (Forall is_fin)) t.
Proof.
  unfold finite, flatten. rewrite Forall_concat, Forall_map.
  split; intros H; (eapply Forall_impl; [|exact H]); intros plane Hp;
    now apply Forall_concat.
Qed.

Lemma Forall_map2 {A B C} (P : A -> Prop) (Q : B -> Prop) (R : C -> Prop)
      (f : A -> B -> C) :
  (forall a b, P a -> Q b -> R (f a b)) ->
  forall l l', Forall P l -> Forall Q l' -> Forall R (map2 f l l').
Proof.
  intros Hf l. induction l as [|a l IH]; intros l' Hl Hl'; [constructor|].
  destruct l' as [|b l']; [constructor|].
  inversion Hl; inversion Hl'; subst. cbn. constructor; auto.
Qed.

Lemma finite_tmap2_fadd (t u : tensor) :
  finite t -> finite u -> finite (tmap2 fadd t u).
Proof.
  rewrite !finite_nested. unfold tmap2.
  apply Forall_map2. intros plane plane'.
  apply Forall_map2. intros row row'.
  apply Forall_map2. intros [x|] [y|]; cbn; auto.
Qed.

Lemma nth_error_with_channel {A B} (f : nat -> A -> B) (c0 : nat) (l : list A) (i : nat) :
  nth_error (with_channel f c0 l) i = option_map (f (c0 + i)%nat) (nth_error l i).
Proof.
  revert c0 i. induction l as [|a l IH]; intros c0 i.
  - destruct i; reflexivity.
  - destruct i as [|i]; cbn.
    + now rewrite Nat.add_0_r.
    + rewrite IH. now rewrite Nat.add_succ_comm.
Qed.

Lemma clamp_within (lo hi x : R) :
  (lo <= hi)%R -> within lo hi (fmax (fmin (Fin x) (Fin hi)) (Fin lo)).
Proof.
  intros H. cbn. split.
  - apply Rmax_r.
  - apply Rmax_lub; [apply Rmin_r|exact H].
Qed.

Lemma clamp_bounded (U : utils) (t : tensor) :
  (forall c, (LOWER_IMAGE_BOUND U c <= UPPER_IMAGE_BOUND U c)%R) ->
  finite t ->
  bounded (LOWER_IMAGE_BOUND U) (UPPER_IMAGE_BOUND U) (clamp U t).
Proof.
  intros Hb Ht c plane Hnth. apply finite_nested in Ht.
  unfold clamp, tmax, tmin in Hnth.
  rewrite !nth_error_with_channel in Hnth. cbn [Nat.add] in Hnth.
  destruct (nth_error t c) as [plane0|] eqn:Hc; [|discriminate Hnth].
  cbn in Hnth. injection Hnth as <-.
  assert (Hp : Forall (Forall is_fin) plane0).
  { apply nth_error_In in Hc. rewrite Forall_forall in Ht. now apply Ht. }
  rewrite map_map, Forall_map. eapply Forall_impl; [|exact Hp].
  intros row Hrow. rewrite map_map, Forall_map. eapply Forall_impl; [|exact Hrow].
  intros [x|] Hx; [|destruct Hx]. apply clamp_within, Hb.
Qed.

Lemma zeros_like_all_zeros (t : tensor) : all_zeros (zeros_like t).
Proof.
  unfold all_zeros, zeros_like. rewrite flatten_tmap, Forall_map.
  apply Forall_forall. reflexivity.
Qed.

Lemma normalized_flat (smooth_grad : tensor) (s : R) :
  tstd smooth_grad = Fin s -> s <> 0%R ->
  exists ys,
    flatten (normalized smooth_grad) = map Fin ys /\
    mean (map Fin ys) = Fin 0%R /\ std (map Fin ys) = Fin 1%R.
Proof.
  intros Hstd Hs. unfold normalized. rewrite !flatten_tmap.
  exact (normalize_list (flatten smooth_grad) s Hstd Hs).
Qed.

Lemma map_fin_finite (ys : list R) : Forall is_fin (map Fin ys).
Proof. rewrite Forall_map. apply Forall_forall. intros; exact I. Qed.

(** ** gradient_ascent *)

(** C3 (as amended): in a gradient ascent step whose smoothed gradient
    has a standard deviation that is a number other than zero (at least
    two entries, not all equal), the normalized gradient of lines 58-61 has
    mean 0 and standard deviation 1 in exact arithmetic, and the update of
    line 64 adds [lr] times it to the data, entry by entry, before the
    clamp of line 68. *)
Theorem normalized_gradient_mean_std :
  forall (U : utils) (config : config) (model : model) (input_tensor : variable)
         (input_text : string) (layer_ids_to_use : list Z) (iteration : Z) (s : R),
    let smooth_grad :=
      smoothed U config iteration
               (backward U model input_tensor input_text layer_ids_to_use) in
    tstd smooth_grad = Fin s ->
    s <> 0%R ->
    tmean (normalized smooth_grad) = Fin 0%R /\
    tstd (normalized smooth_grad) = Fin 1%R /\
    finite (normalized smooth_grad) /\
    ascent config (data input_tensor) (normalized smooth_grad)
    = tmap2 (fun x g => fadd x (fmul (Fin (lr config)) g))
            (data input_tensor) (normalized smooth_grad) /\
    (forall x g : R,
        fadd (Fin x) (fmul (Fin (lr config)) (Fin g)) = Fin (x + lr config * g)%R) /\
    data (gradient_ascent U config model input_tensor input_text
                          layer_ids_to_use iteration)
    = clamp U (ascent config (data input_tensor) (normalized smooth_grad)).
Proof.
  intros U config model input_tensor input_text ids iteration s smooth_grad Hstd Hs.
  destruct (normalized_flat smooth_grad s Hstd Hs) as (ys & Hflat & Hmean & Hstd1).
  split; [|split; [|split; [|split; [|split]]]].
  - unfold tmean. now rewrite Hflat.
  - unfold tstd. now rewrite Hflat.
  - unfold finite. rewrite Hflat. apply map_fin_finite.
  - unfold ascent, tmap2, tmap.
    generalize (normalized smooth_grad) as g. generalize (data input_tensor) as d.
    induction d as [|p d IHd]; intros [|q g]; cbn; try reflexivity.
    f_equal; [|apply IHd]. clear IHd. revert q.
    induction p as [|r p IHp]; intros [|r' q]; cbn; try reflexivity.
    f_equal; [|apply IHp]. clear IHp. revert r'.
    induction r as [|x r IHr]; intros [|y r']; cbn; try reflexivity.
    f_equal. apply IHr.
  - reflexivity.
  - reflexivity.
Qed.

Lemma std_one_minus_one : tstd [[[Fin 1%R; Fin (-1)%R]]] = Fin (sqrt 2).
Proof.
  change (tstd [[[Fin 1%R; Fin (-1)%R]]]) with (std (map Fin [1%R; (-1)%R])).
  rewrite std_fin by (cbn; lia).
  f_equal. f_equal. unfold squares. cbn. lra.
Qed.

Lemma std_zeros : tstd [[[Fin 0%R; Fin 0%R]]] = Fin 0%R.
Proof.
  change (tstd [[[Fin 0%R; Fin 0%R]]]) with (std (map Fin [0%R; 0%R])).
  rewrite std_fin by (cbn; lia).
  f_equal. etransitivity; [|exact sqrt_0]. f_equal. unfold squares. cbn. lra.
Qed.

Lemma fdiv_zero (a : fval) : fdiv a (Fin 0%R) = NaN.
Proof.
  destruct a as [x|]; [|reflexivity]. cbn.
  destruct (Req_dec_T 0 0); [reflexivity|contradiction].
Qed.

Lemma normalized_zeros : normalized [[[Fin 0%R; Fin 0%R]]] = [[[NaN; NaN]]].
Proof.
  unfold normalized. rewrite std_zeros. cbn [tmap map]. now rewrite !fdiv_zero.
Qed.

Lemma normalized_gradient_mean_std_witness :
  let U := sample_utils two_valued in
  let smooth_grad :=
    smoothed U sample_config 0 (backward U sample_model two_entries "Triangles" [1%Z]) in
  tmean (normalized smooth_grad) = Fin 0%R /\
  tstd (normalized smooth_grad) = Fin 1%R /\
  finite (normalized smooth_grad) /\
  ascent sample_config (data two_entries) (normalized smooth_grad)
  = tmap2 (fun x g => fadd x (fmul (Fin (lr sample_config)) g))
          (data two_entries) (normalized smooth_grad) /\
  (forall x g : R,
      fadd (Fin x) (fmul (Fin (lr sample_config)) (Fin g))
      = Fin (x + lr sample_config * g)%R) /\
  data (gradient_ascent U sample_config sample_model two_entries "Triangles" [1%Z] 0)
  = clamp U (ascent sample_config (data two_entries) (normalized smooth_grad)).
Proof.
  apply (normalized_gradient_mean_std (sample_utils two_valued) sample_config
           sample_model two_entries "Triangles" [1%Z] 0%Z (sqrt 2)).
  - exact std_one_minus_one.
  - apply Rgt_not_eq, sqrt_lt_R0. lra.
Defined.

(** C3 as stated fails on a gradient that vanishes: its standard
    deviation is 0, line 61 divides 0 by 0, and the normalized gradient
    consists of non-numbers, whose mean and standard deviation are not 0
    and 1. *)
Lemma normalized_zero_gradient_is_nan :
  let U := sample_utils vanishing in
  let smooth_grad :=
    smoothed U sample_config 0 (backward U sample_model two_entries "Triangles" [1%Z]) in
  smooth_grad = [[[Fin 0%R; Fin 0%R]]] /\
  tstd smooth_grad = Fin 0%R /\
  normalized smooth_grad = [[[NaN; NaN]]] /\
  tmean (normalized smooth_grad) = NaN /\
  tstd (normalized smooth_grad) = NaN /\
  ~ (tmean (normalized smooth_grad) = Fin 0%R /\
     tstd (normalized smooth_grad) = Fin 1%R).
Proof.
  cbv zeta.
  change (smoothed (sample_utils vanishing) sample_config 0
            (backward (sample_utils vanishing) sample_model two_entries
                      "Triangles" [1%Z]))
    with [[[Fin 0%R; Fin 0%R]]].
  rewrite normalized_zeros.
  split; [reflexivity|]. split; [exact std_zeros|]. split; [reflexivity|].
  split; [reflexivity|]. split; [reflexivity|].
  intros [H _]. discriminate H.
Qed.

(** C2 (as amended): a call of [gradient_ascent] returns whenever
    [num_gradient_ascent_iterations] is not zero, hence at every iteration
    of the loop of [deep_dream_static_image], and the gradient buffer is
    then all zeros; when moreover the data are numbers, the smoothed
    gradient has a standard deviation that is a number other than zero and
    [LOWER_IMAGE_BOUND <= UPPER_IMAGE_BOUND] in every channel, every entry
    of the data lies within the bounds of its channel.  A call with
    [num_gradient_ascent_iterations = 0] raises [ZeroDivisionError] at line
    53: the data are as they were and the buffer holds the gradient, which
    was not cleared. *)
Theorem gradient_ascent_within_bounds :
  forall (U : utils) (config : config) (model : model) (input_tensor : variable)
         (input_text : string) (layer_ids_to_use : list Z) (iteration : Z),
    let gradient := backward U model input_tensor input_text layer_ids_to_use in
    let smooth_grad := smoothed U config iteration gradient in
    let call := call_gradient_ascent U config model input_tensor input_text
                                     layer_ids_to_use iteration in
    let after := snd call in
    (num_gradient_ascent_iterations config <> 0%Z ->
     fst call = Ok tt /\
     (exists buffer, grad after = Some buffer /\ all_zeros buffer) /\
     (forall s : R,
         (forall c, (LOWER_IMAGE_BOUND U c <= UPPER_IMAGE_BOUND U c)%R) ->
         finite (data input_tensor) ->
         tstd smooth_grad = Fin s ->
         s <> 0%R ->
         bounded (LOWER_IMAGE_BOUND U) (UPPER_IMAGE_BOUND U) (data after))) /\
    (In iteration (range (num_gradient_ascent_iterations config)) ->
     fst call = Ok tt) /\
    (num_gradient_ascent_iterations config = 0%Z ->
     fst call = Raise division_by_zero /\
     data after = data input_tensor /\
     grad after = Some gradient).
Proof.
  intros U config model input_tensor input_text ids iteration gradient smooth_grad
         call after.
  assert (Hreturns : num_gradient_ascent_iterations config <> 0%Z ->
                     call = (Ok tt, gradient_ascent U config model input_tensor
                                                    input_text ids iteration)).
  { intros HN. unfold call, call_gradient_ascent.
    destruct (Z.eqb_spec (num_gradient_ascent_iterations config) 0);
      [contradiction|reflexivity]. }
  split; [|split].
  - intros HN. unfold after. rewrite (Hreturns HN). cbn [fst snd].
    split; [reflexivity|]. split.
    + eexists. split; [reflexivity|]. apply zeros_like_all_zeros.
    + intros s Hb Hdata Hstd Hs.
      destruct (normalized_flat smooth_grad s Hstd Hs) as (ys & Hflat & _ & _).
      unfold gradient_ascent. cbn [data]. fold gradient. fold smooth_grad.
      apply clamp_bounded; [exact Hb|]. unfold ascent.
      apply finite_tmap2_fadd; [exact Hdata|].
      unfold finite. rewrite flatten_tmap, Hflat, map_map, Forall_map.
      apply Forall_forall. intros; exact I.
  - intros Hin. rewrite Hreturns; [reflexivity|].
    intros H0. rewrite H0 in Hin. exact Hin.
  - intros H0. unfold after, call, call_gradient_ascent. rewrite H0.
    repeat split.
Qed.

Lemma gradient_ascent_within_bounds_witness :
  let U := sample_utils two_valued in
  let call := call_gradient_ascent U sample_config sample_model two_entries
                                   "Triangles" [1%Z] 0 in
  fst call = Ok tt /\
  (exists buffer, grad (snd call) = Some buffer /\ all_zeros buffer) /\
  bounded (LOWER_IMAGE_BOUND U) (UPPER_IMAGE_BOUND U) (data (snd call)).
Proof.
  destruct (gradient_ascent_within_bounds (sample_utils two_valued) sample_config
              sample_model two_entries "Triangles" [1%Z] 0%Z) as [Hreturns _].
  destruct Hreturns as (Hok & Hbuffer & Hbounded); [discriminate|].
  split; [exact Hok|]. split; [exact Hbuffer|].
  apply (Hbounded (sqrt 2)).
  - intros c. cbn. lra.
  - unfold finite. cbn. repeat constructor.
  - exact std_one_minus_one.
  - apply Rgt_not_eq, sqrt_lt_R0. lra.
Defined.

(** C2 as stated fails on a gradient that vanishes: the call returns,
    but the step leaves non-numbers in the data, the clamp of line 68 hands
    them through, and they lie within no bounds (the gradient buffer is
    zeroed all the same). *)
Lemma gradient_ascent_zero_gradient_is_nan :
  let U := sample_utils vanishing in
  let call := call_gradient_ascent U sample_config sample_model two_entries
                                   "Triangles" [1%Z] 0 in
  let after := snd call in
  finite (data two_entries) /\
  fst call = Ok tt /\
  data after = [[[NaN; NaN]]] /\
  grad after = Some [[[Fin 0%R; Fin 0%R]]] /\
  ~ bounded (LOWER_IMAGE_BOUND U) (UPPER_IMAGE_BOUND U) (data after).
Proof.
  cbv zeta.
  change (call_gradient_ascent (sample_utils vanishing) sample_config sample_model
            two_entries "Triangles" [1%Z] 0)
    with (@Ok unit tt,
          gradient_ascent (sample_utils vanishing) sample_config sample_model
                          two_entries "Triangles" [1%Z] 0).
  cbn [fst snd].
  assert (Hdata : data (gradient_ascent (sample_utils vanishing) sample_config
                          sample_model two_entries "Triangles" [1%Z] 0)
                  = [[[NaN; NaN]]]).
  { unfold gradient_ascent. cbn [data].
    change (smoothed (sample_utils vanishing) sample_config 0
              (backward (sample_utils vanishing) sample_model two_entries
                        "Triangles" [1%Z]))
      with [[[Fin 0%R; Fin 0%R]]].
    rewrite normalized_zeros. reflexivity. }
  split; [unfold finite; cbn; repeat constructor|].
  split; [reflexivity|].
  split; [exact Hdata|]. split; [reflexivity|].
  rewrite Hdata. intros H.
  specialize (H 0%nat [[NaN; NaN]] eq_refl).
  inversion H as [|row rows Hrow _]. inversion Hrow as [|x xs Hx _]. exact Hx.
Qed.

(** ** What a call with the model returns *)

Lemma call_with_model (E : env) (U : utils) (model : model) (config : config)
      (frame : option image) (n : nat) :
  call_deep_dream_static_image E U [PModel model; PConfig config; of_frame frame] [] n
  = deep_dream_static_image E U model config frame n.
Proof.
  unfold call_deep_dream_static_image.
  cbn [bind_args bind_positional bind_keywords deep_dream_static_image_params].
  unfold bind, lift.
  destruct frame as [img|]; cbn;
    match goal with |- context [deep_dream_static_image ?a ?b ?c ?d ?e ?f] =>
      destruct (deep_dream_static_image a b c d e f) as [[r s] evs] end;
    reflexivity.
Qed.

(** C1 (as amended): a call of [deep_dream_static_image] with the
    prepared model, the configuration and the current image (a
    non-negative [spatial_shift_size]) returns the post-processed dreamed
    image, not [None], when every layer to use is one of the model's
    layers, and returns [None] when the lookup of the layers fails. *)
Theorem dream_call_returns_image :
  forall (E : env) (U : utils) (model : model) (config : config)
         (frame : option image) (n : nat),
    (0 <= spatial_shift_size config)%Z ->
    (forall layer_ids_to_use,
        layer_ids (layer_names model) (layers_to_use config) = Ok layer_ids_to_use ->
        exists dreamed n' evs,
          call_deep_dream_static_image E U
            [PModel model; PConfig config; of_frame frame] [] n
          = (Ok (Some (post_process_numpy_img U dreamed)), n', evs)) /\
    (forall e,
        layer_ids (layer_names model) (layers_to_use config) = Raise e ->
        call_deep_dream_static_image E U
          [PModel model; PConfig config; of_frame frame] [] n
        = (Ok None, n, [])).
Proof.
  intros E U model config frame n Hs. rewrite call_with_model. split.
  - intros ids Hids.
    destruct (static_image_run E U model config frame n ids Hids Hs)
      as (dreamed & n' & evs & _ & Hrun & _).
    now exists dreamed, n', evs.
  - intros e He. unfold deep_dream_static_image. rewrite He. reflexivity.
Qed.

Lemma dream_call_returns_image_witness :
  (forall layer_ids_to_use,
      layer_ids (layer_names sample_model) (layers_to_use sample_config)
      = Ok layer_ids_to_use ->
      exists dreamed n' evs,
        call_deep_dream_static_image sample_env (sample_utils two_valued)
          [PModel sample_model; PConfig sample_config; of_frame (Some [[[Fin 0%R]]])]
          [] 0%nat
        = (Ok (Some (post_process_numpy_img (sample_utils two_valued) dreamed)),
           n', evs)) /\
  (forall e,
      layer_ids (layer_names sample_model) (layers_to_use sample_config) = Raise e ->
      call_deep_dream_static_image sample_env (sample_utils two_valued)
        [PModel sample_model; PConfig sample_config; of_frame (Some [[[Fin 0%R]]])]
        [] 0%nat
      = (Ok None, 0%nat, [])).
Proof.
  apply (dream_call_returns_image sample_env (sample_utils two_valued)
           sample_model sample_config (Some [[[Fin 0%R]]]) 0%nat).
  cbn. lia.
Defined.

(** C1 as stated fails when a layer to use is unknown to the model: the
    call, made with the prepared model and the current image, returns
    [None]. *)
Lemma dream_call_returns_none_on_unknown_layer :
  layer_ids ["relu3_3"] (layers_to_use sample_config) = Raise ValueError /\
  call_deep_dream_static_image sample_env (sample_utils two_valued)
    [PModel {| class_name := "Vgg16Experimental"; layer_names := ["relu3_3"] |};
     PConfig sample_config; PImage [[[Fin 0%R]]]] [] 0%nat
  = (Ok None, 0%nat, []).
Proof. split; reflexivity. Qed.

End Properties.

(* ================================================================== *)
(** * Further properties of the code *)
(* ================================================================== *)

Module Coverage.
Import Py Numeric Torch World VideoUtils DeepDream Sample Cases Frames Rotation Noise Main Jitter Properties.
Local Open Scope string_scope.
Local Open Scope list_scope.

Unset Implicit Arguments.

(** ** The modes before their first frame *)

Lemma extract_frames_found (E : env) (video_path dump_dir : string) (n : nat) :
  found E "ffmpeg" = true ->
  extract_frames E video_path dump_dir n
  = (Ok {| pattern := path_join dump_dir "frame_%6d.jpg";
           video_fps := int_of_float (cap_fps E video_path) |}, n,
     [Subprocess ["ffmpeg"; "-i"; video_path; "-r";
                  str_of_int (int_of_float (cap_fps E video_path));
                  "-loglevel"; "warning"; path_join dump_dir "frame_%6d.jpg"]]).
Proof. intros H. unfold extract_frames. rewrite H. reflexivity. Qed.

(** X2: without ffmpeg the video mode stops in [extract_frames], after
    creating its two temporary directories: no frame is loaded or dreamed,
    no video is written and the directories are not removed. *)
Theorem video_mode_needs_ffmpeg :
  forall (E : env) (U : utils) (config : config) (n : nat),
    found E "ffmpeg" = false ->
    deep_dream_video E U config n
    = (Raise (Exception_ "ffmpeg not found in the system path, aborting."), n,
       [Makedirs (path_join (OUT_VIDEOS_PATH U) "tmp_input");
        Makedirs (path_join (OUT_VIDEOS_PATH U) "tmp_out")]).
Proof.
  intros E U config n H.
  unfold deep_dream_video, deep_dream_video_with, extract_frames.
  rewrite H. reflexivity.
Qed.

Lemma video_mode_needs_ffmpeg_witness :
  deep_dream_video no_ffmpeg_env (sample_utils two_valued) sample_config 0%nat
  = (Raise (Exception_ "ffmpeg not found in the system path, aborting."), 0%nat,
     [Makedirs "data/out-videos/tmp_input"; Makedirs "data/out-videos/tmp_out"]).
Proof.
  apply (video_mode_needs_ffmpeg no_ffmpeg_env (sample_utils two_valued)
           sample_config 0%nat).
  reflexivity.
Defined.

(** X3: when ffmpeg ran but the frame directory is empty, the loop of
    the video mode does not run and line 201 reads [frame], which was never
    assigned: the mode raises [UnboundLocalError] after the extraction,
    writes no video and leaves the temporary directories behind. *)
Theorem video_mode_without_frames :
  forall (E : env) (U : utils) (config : config) (n : nat),
    let tmp_input_dir := path_join (OUT_VIDEOS_PATH U) "tmp_input" in
    let video_path := parse_input_file U (input config) in
    found E "ffmpeg" = true ->
    listdir E tmp_input_dir = [] ->
    deep_dream_video E U config n
    = (Raise UnboundLocalError, n,
       [Makedirs tmp_input_dir;
        Makedirs (path_join (OUT_VIDEOS_PATH U) "tmp_out");
        Subprocess ["ffmpeg"; "-i"; video_path; "-r";
                    str_of_int (int_of_float (cap_fps E video_path));
                    "-loglevel"; "warning";
                    path_join tmp_input_dir "frame_%6d.jpg"]]).
Proof.
  intros E U config n tmp_input_dir video_path Hfound Hdir.
  unfold deep_dream_video, deep_dream_video_with.
  fold tmp_input_dir. fold video_path. rewrite Hdir.
  rewrite !bind_emit.
  rewrite (bind_ok _ (extract_frames_found E video_path tmp_input_dir n Hfound)).
  reflexivity.
Qed.

Lemma video_mode_without_frames_witness :
  deep_dream_video empty_dir_env (sample_utils two_valued) sample_config 0%nat
  = (Raise UnboundLocalError, 0%nat,
     [Makedirs "data/out-videos/tmp_input"; Makedirs "data/out-videos/tmp_out";
      Subprocess ["ffmpeg"; "-i"; "figures.jpg"; "-r"; "30"; "-loglevel"; "warning";
                  "data/out-videos/tmp_input/frame_%6d.jpg"]]).
Proof.
  apply (video_mode_without_frames empty_dir_env (sample_utils two_valued)
           sample_config 0%nat); reflexivity.
Defined.

(** X4: the ouroboros mode refuses an input whose lower-cased name ends
    in none of the supported image extensions: the assertion of line 129
    fails before anything is loaded, dreamed or written. *)
Theorem ouroboros_refuses_other_inputs :
  forall (E : env) (U : utils) (config : config) (n : nat),
    (forall img_ext, In img_ext (SUPPORTED_IMAGE_FORMATS U) ->
                     endswith (lower (input_name config)) img_ext = false) ->
    deep_dream_video_ouroboros E U config n = (Raise AssertionError, n, []).
Proof.
  intros E U config n H.
  unfold deep_dream_video_ouroboros, deep_dream_video_ouroboros_with.
  replace (existsb (fun img_ext => endswith (lower (input_name config)) img_ext)
                   (SUPPORTED_IMAGE_FORMATS U)) with false; [reflexivity|].
  symmetry. apply not_true_is_false. intros Hex.
  apply existsb_exists in Hex. destruct Hex as (ext & Hin & Hend).
  rewrite (H ext Hin) in Hend. discriminate Hend.
Qed.

Lemma ouroboros_refuses_other_inputs_witness :
  deep_dream_video_ouroboros sample_env (sample_utils two_valued)
    (ouroboros_config "clip.mp4" 30 false) 0%nat
  = (Raise AssertionError, 0%nat, []).
Proof.
  apply (ouroboros_refuses_other_inputs sample_env (sample_utils two_valued)
           (ouroboros_config "clip.mp4" 30 false) 0%nat).
  intros img_ext Hin. cbn in Hin.
  destruct Hin as [<-|[<-|[<-|[<-|[]]]]]; reflexivity.
Defined.

(** X5: with a supported image name and an ouroboros length of zero or
    less the loop does not run and nothing is dreamed or saved.  Started
    from noise, [frame] is still [None] at line 150 and the mode raises
    [AttributeError]; started from the image, a video is assembled with the
    width and height of the loaded image from whatever .jpg files the dump
    directory holds. *)
Theorem ouroboros_without_iterations :
  forall (E : env) (U : utils) (config : config) (n : nat),
    let frame := load_image U (parse_input_file U (input config))
                            (img_dimensions config) in
    existsb (fun img_ext => endswith (lower (input_name config)) img_ext)
            (SUPPORTED_IMAGE_FORMATS U) = true ->
    (ouroboros_length config <= 0)%Z ->
    deep_dream_video_ouroboros E U config n
    = if use_noise config
      then (Raise AttributeError, n, [])
      else (Ok (set_img_dimensions config (shape frame)), n,
            [CreateVideo (width frame) (height frame) (fps config)
                         (sorted (glob_jpg E (dump_dir config)))]).
Proof.
  intros E U config n frame Hext Hlen.
  unfold deep_dream_video_ouroboros, deep_dream_video_ouroboros_with.
  rewrite Hext. unfold range.
  replace (Z.to_nat (ouroboros_length config)) with 0%nat by lia.
  fold frame. destruct (use_noise config); reflexivity.
Qed.

Lemma ouroboros_without_iterations_witness :
  deep_dream_video_ouroboros sample_env (sample_utils two_valued)
    (ouroboros_config "figures.jpg" 0 true) 0%nat
  = (Raise AttributeError, 0%nat, []).
Proof.
  apply (ouroboros_without_iterations sample_env (sample_utils two_valued)
           (ouroboros_config "figures.jpg" 0 true) 0%nat).
  - reflexivity.
  - cbn. lia.
Defined.

(** ** Frame names *)

Lemma iter_flat_map_nil {A} (f : A -> list A) (n : nat) :
  Nat.iter n (flat_map f) [] = [].
Proof.
  induction n as [|n IH]; [reflexivity|].
  rewrite Nat.iter_succ, IH. reflexivity.
Qed.

Lemma run_times_nil (n : nat) (lo hi : ascii) :
  run (Times (S n) (Class lo hi)) "" = [].
Proof.
  change (run (Times (S n) (Class lo hi)) "")
    with (Nat.iter (S n) (flat_map (run (Class lo hi))) [""]).
  rewrite Nat.iter_succ_r. cbn [flat_map run app]. apply iter_flat_map_nil.
Qed.

Lemma run_times_cons (n : nat) (lo hi c : ascii) (s : string) :
  run (Times (S n) (Class lo hi)) (String c s)
  = if in_class lo hi c then run (Times n (Class lo hi)) s else [].
Proof.
  change (run (Times (S n) (Class lo hi)) (String c s))
    with (Nat.iter (S n) (flat_map (run (Class lo hi))) [String c s]).
  rewrite Nat.iter_succ_r. cbn [flat_map run app].
  destruct (in_class lo hi c); [reflexivity|apply iter_flat_map_nil].
Qed.

Lemma run_times_0 (r : regex) (s : string) : run (Times 0 r) s = [s].
Proof. reflexivity. Qed.

Lemma run_lit_cat (c : ascii) (r : regex) (s : string) :
  run (Cat (Lit c) r) s
  = match s with
    | String c' s' => if Ascii.eqb c c' then run r s' else []
    | EmptyString => []
    end.
Proof.
  cbn [run]. destruct s as [|c' s']; [reflexivity|].
  destruct (Ascii.eqb c c'); cbn; [apply app_nil_r|reflexivity].
Qed.

Lemma run_lit (c : ascii) (s : string) :
  run (Lit c) s
  = match s with
    | String c' s' => if Ascii.eqb c c' then [s'] else []
    | EmptyString => []
    end.
Proof. reflexivity. Qed.

Lemma run_cat (r1 r2 : regex) (s : string) :
  run (Cat r1 r2) s = flat_map (run r2) (run r1 s).
Proof. reflexivity. Qed.

Lemma jpg_suffix (s : string) :
  existsb (String.eqb "")
          (run (Cat (Lit ".") (Cat (Lit "j") (Cat (Lit "p") (Lit "g")))) s) = true
  <-> s = ".jpg".
Proof.
  split.
  - rewrite !run_lit_cat.
    do 3 (destruct s as [|? s]; [discriminate|];
          match goal with |- context [Ascii.eqb ?a ?b] =>
            destruct (Ascii.eqb_spec a b) as [<-|]; [|discriminate] end;
          rewrite ?run_lit_cat).
    rewrite run_lit. destruct s as [|? s]; [discriminate|].
    match goal with |- context [Ascii.eqb ?a ?b] =>
      destruct (Ascii.eqb_spec a b) as [<-|]; [|discriminate] end.
    cbn. destruct s; [reflexivity|discriminate].
  - intros ->. reflexivity.
Qed.

(** X6: [valid_frame_name] accepts exactly the names made of six ASCII
    digits followed by [.jpg]. *)
Theorem valid_frame_name_iff :
  forall s : string,
    valid_frame_name s = true <->
    exists d1 d2 d3 d4 d5 d6,
      (is_digit d1 && is_digit d2 && is_digit d3
       && is_digit d4 && is_digit d5 && is_digit d6 = true) /\
      s = String d1 (String d2 (String d3 (String d4 (String d5 (String d6 ".jpg"))))).
Proof.
  intros s. unfold valid_frame_name, fullmatch, frame_pattern, is_digit.
  rewrite run_cat. split.
  - do 6 (destruct s as [|? s];
          [rewrite run_times_nil; discriminate|];
          rewrite run_times_cons;
          match goal with |- context [if in_class "0" "9" ?c then _ else _] =>
            destruct (in_class "0" "9" c) eqn:?; [|discriminate] end).
    rewrite run_times_0. cbn [flat_map]. rewrite app_nil_r.
    intros H. apply jpg_suffix in H. subst s.
    do 6 eexists. split; [|reflexivity].
    repeat match goal with H : in_class _ _ _ = true |- _ => rewrite H; clear H end.
    reflexivity.
  - intros (d1 & d2 & d3 & d4 & d5 & d6 & Hd & ->).
    do 5 (apply andb_prop in Hd; destruct Hd as [Hd ?]).
    do 6 (rewrite run_times_cons;
          match goal with H : in_class "0" "9" ?c = true |- context [in_class "0" "9" ?c] =>
            rewrite H end).
    reflexivity.
Qed.

Lemma ascii_compare_refl (a : ascii) : Ascii.compare a a = Eq.
Proof. unfold Ascii.compare. apply N.compare_refl. Qed.

Lemma ascii_compare_lt_trans (a b c : ascii) :
  Ascii.compare a b = Lt -> Ascii.compare b c = Lt -> Ascii.compare a c = Lt.
Proof.
  unfold Ascii.compare. rewrite !N.compare_lt_iff. apply N.lt_trans.
Qed.

Lemma string_le_trans (a b c : string) :
  string_le a b -> string_le b c -> string_le a c.
Proof.
  unfold string_le, String.leb. revert b c.
  induction a as [|x a IH]; intros [|y b] [|z c]; cbn [String.compare];
    try reflexivity; try discriminate.
  destruct (Ascii.compare x y) eqn:Hxy; try discriminate;
    destruct (Ascii.compare y z) eqn:Hyz; try discriminate; intros Hab Hbc.
  - apply Ascii.compare_eq_iff in Hxy, Hyz. subst.
    rewrite ascii_compare_refl. now apply (IH b c).
  - apply Ascii.compare_eq_iff in Hxy. subst. now rewrite Hyz.
  - apply Ascii.compare_eq_iff in Hyz. subst. now rewrite Hxy.
  - now rewrite (ascii_compare_lt_trans x y z Hxy Hyz).
Qed.

Lemma in_insert_sorted (x a : string) (l : list string) :
  In x (insert_sorted a l) <-> x = a \/ In x l.
Proof.
  induction l as [|y l IH]; cbn.
  - intuition.
  - destruct (String.leb a y); cbn; [intuition|]. rewrite IH. intuition.
Qed.

Lemma in_sorted (x : string) (l : list string) : In x (sorted l) <-> In x l.
Proof.
  induction l as [|a l IH]; cbn; [reflexivity|].
  rewrite in_insert_sorted, IH. intuition.
Qed.

Lemma insert_sorted_sorted (a : string) (l : list string) :
  StronglySorted string_le l -> StronglySorted string_le (insert_sorted a l).
Proof.
  induction l as [|y l IH]; intros Hl; cbn.
  - repeat constructor.
  - inversion Hl as [|? ? Hs Hy]; subst.
    destruct (String.leb a y) eqn:Hay.
    + constructor; [exact Hl|]. constructor; [exact Hay|].
      eapply Forall_impl; [|exact Hy]. intros z Hz.
      now apply (string_le_trans a y z).
    + constructor; [now apply IH|].
      apply Forall_forall. intros z Hz. apply in_insert_sorted in Hz.
      destruct Hz as [->|Hz].
      * destruct (String.leb_total a y) as [H|H]; [congruence|exact H].
      * rewrite Forall_forall in Hy. now apply Hy.
Qed.

Lemma sorted_sorted (l : list string) : StronglySorted string_le (sorted l).
Proof.
  induction l as [|a l IH]; cbn; [constructor|]. now apply insert_sorted_sorted.
Qed.

Lemma filter_sorted (f : string -> bool) (l : list string) :
  StronglySorted string_le l -> StronglySorted string_le (filter f l).
Proof.
  induction l as [|a l IH]; intros Hl; cbn; [constructor|].
  inversion Hl as [|? ? Hs Ha]; subst.
  destruct (f a); [|now apply IH].
  constructor; [now apply IH|].
  apply Forall_forall. intros z Hz. apply filter_In in Hz.
  rewrite Forall_forall in Ha. now apply Ha.
Qed.

(** X7: [valid_frames] returns exactly the valid frame names of the
    directory, in ascending order. *)
Theorem valid_frames_sorted_valid :
  forall (E : env) (input_dir : string),
    StronglySorted string_le (valid_frames E input_dir) /\
    forall name,
      In name (valid_frames E input_dir)
      <-> In name (listdir E input_dir) /\ valid_frame_name name = true.
Proof.
  intros E input_dir. unfold valid_frames. split.
  - apply filter_sorted, sorted_sorted.
  - intros name. rewrite filter_In, in_sorted. reflexivity.
Qed.

Lemma frame_prefix_invalid (name : string) :
  String.prefix "frame_" name = true -> valid_frame_name name = false.
Proof.
  intros Hp. destruct name as [|c name]; [discriminate Hp|].
  cbn [String.prefix] in Hp. destruct (ascii_dec "f" c) as [<-|]; [|discriminate Hp].
  unfold valid_frame_name, fullmatch, frame_pattern.
  rewrite run_cat, run_times_cons. reflexivity.
Qed.

(** X8: the frames [extract_frames] dumps are named after the pattern
    [frame_%6d.jpg]; [valid_frames] accepts no name that starts with
    [frame_], so a directory that holds only such frames has no valid
    frame. *)
Theorem valid_frames_rejects_extracted :
  forall (E : env) (input_dir : string),
    (forall name, In name (listdir E input_dir) ->
                  String.prefix "frame_" name = true) ->
    valid_frames E input_dir = [].
Proof.
  intros E input_dir H. unfold valid_frames.
  assert (Hall : forall name, In name (sorted (listdir E input_dir)) ->
                              valid_frame_name name = false).
  { intros name Hin. apply frame_prefix_invalid, H. now apply in_sorted. }
  induction (sorted (listdir E input_dir)) as [|a l IH]; [reflexivity|].
  cbn [filter]. rewrite (Hall a (or_introl eq_refl)). apply IH.
  intros name Hin. apply Hall. now right.
Qed.

Lemma valid_frames_rejects_extracted_witness :
  valid_frames sample_env "data/out-videos/tmp_input" = [].
Proof.
  apply (valid_frames_rejects_extracted sample_env "data/out-videos/tmp_input").
  intros name Hin. cbn in Hin. destruct Hin as [<-|[<-|[]]]; reflexivity.
Defined.

(** ** create_gif *)

Lemma read_frames (frame_paths images : list string) (n : nat) :
  for_loop frame_paths
           (fun frame_path (images : list string) =>
              bind (emit (Imread frame_path))
                   (fun _ => ret (images ++ [frame_path])))
           images n
  = (Ok (images ++ frame_paths), n, map Imread frame_paths).
Proof.
  revert images. induction frame_paths as [|p l IH]; intros images.
  - cbn. now rewrite app_nil_r.
  - cbn [for_loop]. unfold bind at 1. unfold bind at 1. cbn [emit ret].
    rewrite IH. cbn. now rewrite <- app_assoc.
Qed.

(** X9: [create_gif] fails its assertion, before it lists the directory,
    unless the extension of the output path is [.gif] in some letter case;
    otherwise it reads the directory's names that end in [.jpg] (lower
    case only), each joined to the directory, in ascending order of name,
    and writes them as one gif at 10 frames per second; when the directory
    holds no such name, nothing is read and [imageio.mimwrite], handed no
    image, raises [ValueError] without writing. *)
Theorem create_gif_reads_sorted_jpgs :
  forall (E : env) (frames_dir out_path : string) (n : nat),
    let names := filter (fun frame_name => endswith frame_name ".jpg")
                        (sorted (listdir E frames_dir)) in
    let frame_paths := map (path_join frames_dir) names in
    StronglySorted string_le names /\
    (forall name, In name names
                  <-> In name (listdir E frames_dir) /\ endswith name ".jpg" = true) /\
    create_gif E frames_dir out_path n
    = if String.eqb (lower (snd (splitext out_path))) ".gif"
      then match names with
           | [] => (Raise ValueError, n, [])
           | _ :: _ =>
               (Ok tt, n, map Imread frame_paths ++ [Mimwrite out_path frame_paths 10])
           end
      else (Raise AssertionError, n, []).
Proof.
  intros E frames_dir out_path n names frame_paths. split; [|split].
  - apply filter_sorted, sorted_sorted.
  - intros name. unfold names. rewrite filter_In, in_sorted. reflexivity.
  - unfold create_gif. fold names. fold frame_paths.
    destruct (String.eqb (lower (snd (splitext out_path))) ".gif"); [|reflexivity].
    cbn [assert]. unfold bind at 1. cbn [ret].
    unfold bind at 1. rewrite read_frames. unfold frame_paths.
    destruct names as [|name rest]; reflexivity.
Qed.

(** ** rotatedRectWithMaxArea *)

Section RotatedRect.
Local Open Scope R_scope.

Lemma abs_sin_cos (angle : R) :
  0 <= Rabs (sin angle) /\ 0 <= Rabs (cos angle) /\
  Rabs (sin angle) * Rabs (sin angle) + Rabs (cos angle) * Rabs (cos angle) = 1.
Proof.
  split; [apply Rabs_pos|]. split; [apply Rabs_pos|].
  pose proof (sin2_cos2 angle) as H. unfold Rsqr in H.
  replace (Rabs (sin angle) * Rabs (sin angle)) with (sin angle * sin angle).
  - replace (Rabs (cos angle) * Rabs (cos angle)) with (cos angle * cos angle); [exact H|].
    rewrite <- Rabs_mult. symmetry. apply Rabs_pos_eq. nra.
  - rewrite <- Rabs_mult. symmetry. apply Rabs_pos_eq. nra.
Qed.

Lemma Rleb_true x y : Rleb x y = true <-> x <= y.
Proof. unfold Rleb. destruct (Rle_dec x y); split; auto; discriminate. Qed.
Lemma Rleb_false x y : Rleb x y = false <-> y < x.
Proof. unfold Rleb. destruct (Rle_dec x y); split; try discriminate; auto; lra. Qed.
Lemma Rltb_true x y : Rltb x y = true <-> x < y.
Proof. unfold Rltb. destruct (Rlt_dec x y); split; auto; discriminate. Qed.
Lemma Rltb_false x y : Rltb x y = false <-> y <= x.
Proof. unfold Rltb. destruct (Rlt_dec x y); split; try discriminate; auto; lra. Qed.
Lemma Rgeb_true x y : Rgeb x y = true <-> y <= x.
Proof. unfold Rgeb. destruct (Rge_dec x y); split; auto; try discriminate; lra. Qed.
Lemma Rgeb_false x y : Rgeb x y = false <-> x < y.
Proof. unfold Rgeb. destruct (Rge_dec x y); split; try discriminate; auto; lra. Qed.

Lemma pydiv_ok x y : y <> 0 -> pydiv x y = Ok (x / y).
Proof. intros H. unfold pydiv. destruct (Req_dec_T y 0); [contradiction|reflexivity]. Qed.

(** The divisions of [rotatedRectWithMaxArea] are never by zero. *)
Lemma rotated_rect_total (w h angle : R) :
  exists wr hr, rotatedRectWithMaxArea w h angle = Ok (wr, hr).
Proof.
  unfold rotatedRectWithMaxArea.
  destruct (Rleb w 0 || Rleb h 0) eqn:Hdeg; [now exists 0, 0|].
  apply orb_false_elim in Hdeg. destruct Hdeg as [Hw Hh].
  apply Rleb_false in Hw, Hh.
  destruct (abs_sin_cos angle) as (Hs & Hc & Hsc).
  set (S := Rabs (sin angle)) in *. set (C := Rabs (cos angle)) in *.
  set (long := if Rgeb w h then w else h).
  set (short := if Rgeb w h then h else w).
  assert (Hlong : 0 < long) by (unfold long; destruct (Rgeb w h); assumption).
  assert (Hshort : 0 < short) by (unfold short; destruct (Rgeb w h); assumption).
  destruct (Rleb short (2 * S * C * long) || Rltb (Rabs (S - C)) (1 / 10000000000))
    eqn:Hcase.
  - assert (HS : S <> 0 /\ C <> 0).
    { apply orb_prop in Hcase. destruct Hcase as [H1|H2].
      - apply Rleb_true in H1. split; intros H0; rewrite H0 in H1; lra.
      - apply Rltb_true in H2. split; intros H0; rewrite H0 in *.
        + assert (C = 1) by nra. subst C. rewrite H in H2.
          rewrite Rabs_left in H2; lra.
        + assert (S = 1) by nra. rewrite H in H2.
          rewrite Rabs_right in H2; lra. }
    destruct HS as [HS HC].
    destruct (Rgeb w h); rewrite !pydiv_ok by assumption; do 2 eexists; reflexivity.
  - apply orb_false_elim in Hcase. destruct Hcase as [_ H2].
    apply Rltb_false in H2.
    assert (Hne : C * C - S * S <> 0).
    { intros H0. assert (S = C) by nra. rewrite H in H2.
      rewrite Rminus_diag, Rabs_R0 in H2. lra. }
    rewrite !pydiv_ok by assumption. do 2 eexists; reflexivity.
Qed.

(** X10: in exact arithmetic [rotatedRectWithMaxArea] never divides by
    zero: whatever the sides and the angle, it returns a pair (the sine or
    cosine it divides by in the half constrained case, and [cos_2a] in the
    fully constrained case, cannot vanish there); a side that is zero or
    negative gives [(0, 0)]. *)
Theorem rotated_rect_never_divides_by_zero :
  forall w h angle : R,
    (exists wr hr, rotatedRectWithMaxArea w h angle = Ok (wr, hr)) /\
    (w <= 0 \/ h <= 0 -> rotatedRectWithMaxArea w h angle = Ok (0, 0)).
Proof.
  intros w h angle. split; [apply rotated_rect_total|].
  intros Hdeg. unfold rotatedRectWithMaxArea.
  replace (Rleb w 0 || Rleb h 0) with true; [reflexivity|].
  symmetry. apply orb_true_iff.
  destruct Hdeg as [H|H]; [left|right]; now apply Rleb_true.
Qed.

Lemma rotated_rect_abs (w h a b : R) :
  Rabs (sin a) = Rabs (sin b) -> Rabs (cos a) = Rabs (cos b) ->
  rotatedRectWithMaxArea w h a = rotatedRectWithMaxArea w h b.
Proof. intros Hs Hc. unfold rotatedRectWithMaxArea. now rewrite Hs, Hc. Qed.

(** X11: as the comment of lines 266-267 says, the result is the same
    for [angle], [-angle] and [180 - angle] (and for [angle + 180]): only
    the absolute values of the sine and cosine are used. *)
Theorem rotated_rect_angle_symmetry :
  forall w h angle : R,
    rotatedRectWithMaxArea w h (- angle) = rotatedRectWithMaxArea w h angle /\
    rotatedRectWithMaxArea w h (PI - angle) = rotatedRectWithMaxArea w h angle /\
    rotatedRectWithMaxArea w h (angle + PI) = rotatedRectWithMaxArea w h angle.
Proof.
  intros w h angle. repeat split; apply rotated_rect_abs.
  - now rewrite sin_neg, Rabs_Ropp.
  - now rewrite cos_neg.
  - now rewrite sin_PI_x.
  - now rewrite Rtrigo_facts.cos_pi_minus, Rabs_Ropp.
  - now rewrite neg_sin, Rabs_Ropp.
  - now rewrite neg_cos, Rabs_Ropp.
Qed.

Lemma rotated_rect_sin_0 (w h angle : R) :
  0 < w -> 0 < h -> sin angle = 0 -> rotatedRectWithMaxArea w h angle = Ok (w, h).
Proof.
  intros Hw Hh H0. destruct (abs_sin_cos angle) as (Hs & Hc & Hsc).
  unfold rotatedRectWithMaxArea.
  rewrite H0, Rabs_R0 in *.
  assert (HC : Rabs (cos angle) = 1) by nra. rewrite HC.
  replace (Rleb w 0 || Rleb h 0) with false
    by (symmetry; apply orb_false_intro; apply Rleb_false; assumption).
  replace (Rleb (if Rgeb w h then h else w)
                (2 * 0 * 1 * (if Rgeb w h then w else h))) with false
    by (symmetry; apply Rleb_false; destruct (Rgeb w h); lra).
  replace (Rltb (Rabs (0 - 1)) (1 / 10000000000)) with false
    by (symmetry; apply Rltb_false; rewrite Rabs_left; lra).
  cbn [orb]. rewrite !pydiv_ok by lra. unfold pair_of. f_equal. f_equal; field.
Qed.

Lemma rotated_rect_cos_0 (w h angle : R) :
  0 < w -> 0 < h -> cos angle = 0 -> rotatedRectWithMaxArea w h angle = Ok (h, w).
Proof.
  intros Hw Hh H0. destruct (abs_sin_cos angle) as (Hs & Hc & Hsc).
  unfold rotatedRectWithMaxArea.
  rewrite H0, Rabs_R0 in *.
  assert (HS : Rabs (sin angle) = 1) by nra. rewrite HS.
  replace (Rleb w 0 || Rleb h 0) with false
    by (symmetry; apply orb_false_intro; apply Rleb_false; assumption).
  replace (Rleb (if Rgeb w h then h else w)
                (2 * 1 * 0 * (if Rgeb w h then w else h))) with false
    by (symmetry; apply Rleb_false; destruct (Rgeb w h); lra).
  replace (Rltb (Rabs (1 - 0)) (1 / 10000000000)) with false
    by (symmetry; apply Rltb_false; rewrite Rabs_right; lra).
  cbn [orb]. rewrite !pydiv_ok by lra. unfold pair_of. f_equal. f_equal; field.
Qed.

(** X12: in exact arithmetic a rectangle rotated by a multiple of 180
    degrees keeps its width and height, and one rotated by 90 degrees more
    exchanges them. *)
Theorem rotated_rect_right_angles :
  forall (w h : R) (k : Z),
    0 < w -> 0 < h ->
    rotatedRectWithMaxArea w h (IZR k * PI) = Ok (w, h) /\
    rotatedRectWithMaxArea w h (IZR k * PI + PI / 2) = Ok (h, w).
Proof.
  intros w h k Hw Hh. split.
  - apply rotated_rect_sin_0; try assumption. apply sin_eq_0_1. now exists k.
  - apply rotated_rect_cos_0; try assumption. apply cos_eq_0_1. now exists k.
Qed.

Lemma rotated_rect_right_angles_witness :
  rotatedRectWithMaxArea 1280 720 (IZR 0 * PI) = Ok (1280, 720) /\
  rotatedRectWithMaxArea 1280 720 (IZR 0 * PI + PI / 2) = Ok (720, 1280).
Proof. apply (rotated_rect_right_angles 1280 720 0); lra. Defined.

(** X13: exchanging the width and the height of a rectangle that is not
    a square exchanges the width and the height of the result. *)
Theorem rotated_rect_swaps_with_sides :
  forall w h angle : R,
    w <> h ->
    rotatedRectWithMaxArea h w angle
    = match rotatedRectWithMaxArea w h angle with
      | Ok (wr, hr) => Ok (hr, wr)
      | Raise e => Raise e
      end.
Proof.
  intros w h angle Hne. unfold rotatedRectWithMaxArea.
  rewrite (orb_comm (Rleb h 0)).
  destruct (Rleb w 0 || Rleb h 0); [reflexivity|].
  assert (Hflip : Rgeb h w = negb (Rgeb w h)).
  { destruct (Rgeb w h) eqn:H1, (Rgeb h w) eqn:H2; try reflexivity; exfalso.
    - apply Rgeb_true in H1, H2. lra.
    - apply Rgeb_false in H1, H2. lra. }
  rewrite Hflip.
  destruct (Rgeb w h); cbn [negb];
    match goal with |- context [if ?c then _ else _] => destruct c end;
    unfold pair_of, pydiv;
    repeat match goal with |- context [Req_dec_T ?x 0] => destruct (Req_dec_T x 0) end;
    reflexivity.
Qed.

Lemma rotated_rect_swaps_with_sides_witness :
  rotatedRectWithMaxArea 720 1280 (radians (25 / 100))
  = match rotatedRectWithMaxArea 1280 720 (radians (25 / 100)) with
    | Ok (wr, hr) => Ok (hr, wr)
    | Raise e => Raise e
    end.
Proof. apply (rotated_rect_swaps_with_sides 1280 720 (radians (25 / 100))). lra. Defined.

End RotatedRect.

(** ** The video from noise *)

Lemma marks_app (a b : list event) : marks (a ++ b) = marks a ++ marks b.
Proof. apply flat_map_app. Qed.

Lemma flat_map_nil {X Y} (l : list X) : flat_map (fun _ : X => @nil Y) l = [].
Proof. induction l as [|x l IH]; [reflexivity|exact IH]. Qed.

(** A loop whose iterations keep an invariant of the locals. *)
Lemma for_loop_inv {S E X L T} (P : L -> Prop) (proj : list E -> list T)
      (f : X -> list T) (body : X -> L -> M S E L) (xs : list X) :
  (forall a b, proj (a ++ b) = proj a ++ proj b) ->
  proj [] = [] ->
  (forall x l s, In x xs -> P l ->
                 exists l' s' evs,
                   body x l s = (Ok l', s', evs) /\ P l' /\ proj evs = f x) ->
  forall l s, P l ->
    exists l' s' evs,
      for_loop xs body l s = (Ok l', s', evs) /\ P l' /\ proj evs = flat_map f xs.
Proof.
  intros Happ Hnil.
  induction xs as [|x xs IH]; intros Hbody l s Hl.
  - exists l, s, []. repeat split; [exact Hl|exact Hnil].
  - destruct (Hbody x l s (or_introl eq_refl) Hl) as (l1 & s1 & evs1 & Hrun1 & Hl1 & Hp1).
    destruct (IH (fun x' l' s' Hin => Hbody x' l' s' (or_intror Hin)) l1 s1 Hl1)
      as (l2 & s2 & evs2 & Hrun2 & Hl2 & Hp2).
    exists l2, s2, (evs1 ++ evs2). repeat split.
    + cbn [for_loop]. rewrite (bind_ok _ Hrun1), Hrun2. reflexivity.
    + exact Hl2.
    + rewrite Happ, Hp1, Hp2. reflexivity.
Qed.

(** A dream call that finds its layers returns an image and makes, of the
    calls the modes make around it, none. *)
Lemma static_image_marks (E : env) (U : utils) (model : model) (config : config)
      (img : option image) (n : nat) (layer_ids_to_use : list Z) :
  layer_ids (layer_names model) (layers_to_use config) = Ok layer_ids_to_use ->
  (0 <= spatial_shift_size config)%Z ->
  exists dreamed n' evs,
    deep_dream_static_image E U model config img n = (Ok (Some dreamed), n', evs) /\
    marks evs = [].
Proof.
  intros Hids Hs.
  unfold deep_dream_static_image. rewrite Hids.
  destruct (starting_image_run U config img n) as (img0 & n0 & Hstart).
  set (img1 := pre_process_numpy_img U img0).
  set (base_shape := (height img1, width img1)).
  destruct (for_loop_events marks (fun _ : Z => @nil mark)
              (pyramid_step E U config model (text_prompt config)
                            layer_ids_to_use base_shape)
              marks_app eq_refl) with
    (xs := range (pyramid_size config)) (l := img1) (s := n0)
    as (img2 & n2 & evs & Hrun & Hevs).
  { intros level img' s. unfold pyramid_step.
    set (t0 := {| data := _; grad := None |}).
    destruct (for_loop_events marks (fun _ : Z => @nil mark)
                (jittered_step E U config model (text_prompt config)
                               layer_ids_to_use level)
                marks_app eq_refl) with
      (xs := range (num_gradient_ascent_iterations config)) (l := t0) (s := s)
      as (t & n' & evs & Hrun & Hevs).
    { intros iteration t s'. do 3 eexists. split.
      - apply jittered_step_run, Hs.
      - reflexivity. }
    rewrite flat_map_nil in Hevs.
    do 3 eexists. split.
    - rewrite bind_emit, (bind_ok _ Hrun). cbn. reflexivity.
    - cbn. rewrite app_nil_r. exact Hevs. }
  rewrite flat_map_nil in Hevs.
  do 3 eexists. split.
  - rewrite (bind_ok _ Hstart). fold img1. fold base_shape.
    rewrite (bind_ok _ Hrun). cbn. rewrite app_nil_r. reflexivity.
  - exact Hevs.
Qed.

Lemma rotate_max_area_ok (CV : opencv) (image : image) (angle : R) (shift : Z * Z) :
  exists rotated, rotate_max_area CV image angle shift = Ok rotated.
Proof.
  unfold rotate_max_area.
  destruct (rotated_rect_total (IZR (width image)) (IZR (height image))
                               (radians angle)) as (wr & hr & ->).
  eexists. reflexivity.
Qed.

(** One iteration, over what its dream call does. *)
Lemma noise_frame_run (E : env) (U : utils) (CV : opencv) (model : model)
      (config : config) (frame_id : Z) (last_img : option image)
      (frame rotated : image) (dreamed : option image) (n n' : nat)
      (evs : list event) :
  rotate_max_area CV frame (25 / 100) (5, 5)%Z = Ok rotated ->
  (last_img = None \/ dreamed <> None) ->
  let input := cv_resize U rotated (1280, 720)%Z in
  deep_dream_static_image E U model config (Some input) n = (Ok dreamed, n', evs) ->
  noise_frame E U CV model config frame_id (last_img, frame) n
  = (Ok (dreamed, next_frame U config last_img input dreamed), n',
     Dream (Some input) :: evs
       ++ (if blended config last_img then [Blend frame_id] else [])
       ++ [Save (Some frame_id) dreamed]).
Proof.
  intros Hrot Hcase input Hrun.
  unfold noise_frame. cbn [fst snd].
  unfold bind at 1. unfold lift. rewrite Hrot. fold input.
  rewrite bind_emit. unfold from_noise_call.
  change (PImage input) with (of_frame (Some input)).
  rewrite (bind_ok _ (eq_trans (call_with_model E U model config (Some input) n) Hrun)).
  unfold next_frame, blended.
  destruct (blend config) as [coefficient|], last_img as [last|], dreamed as [d|];
    try (destruct Hcase as [Hc|Hc]; [discriminate Hc|now contradiction Hc]);
    unfold bind, emit, ret; cbn; rewrite ?app_nil_r; reflexivity.
Qed.

(** X14: without ffmpeg the mode that dreams from noise stops in
    [extract_frames], although it reads no frame of the input video: the two
    temporary directories were created, the noise frame was not drawn yet
    and nothing was dreamed or saved. *)
Theorem noise_mode_needs_ffmpeg :
  forall (E : env) (U : utils) (CV : opencv) (fetch : string -> string -> model)
         (config : config) (num_frames : Z) (n : nat),
    found E "ffmpeg" = false ->
    deep_dream_video_from_noise E U CV fetch config num_frames n
    = (Raise (Exception_ "ffmpeg not found in the system path, aborting."), n,
       [Makedirs (path_join (OUT_VIDEOS_PATH U) "tmp_input");
        Makedirs (path_join (OUT_VIDEOS_PATH U) "tmp_out")]).
Proof.
  intros E U CV fetch config num_frames n H.
  unfold deep_dream_video_from_noise.
  rewrite !bind_emit. unfold bind at 1. unfold extract_frames. rewrite H.
  reflexivity.
Qed.

Lemma noise_mode_needs_ffmpeg_witness :
  deep_dream_video_from_noise no_ffmpeg_env (sample_utils two_valued)
    sample_opencv sample_fetch sample_config 100 0%nat
  = (Raise (Exception_ "ffmpeg not found in the system path, aborting."), 0%nat,
     [Makedirs "data/out-videos/tmp_input"; Makedirs "data/out-videos/tmp_out"]).
Proof.
  apply (noise_mode_needs_ffmpeg no_ffmpeg_env (sample_utils two_valued)
           sample_opencv sample_fetch sample_config 100 0%nat).
  reflexivity.
Defined.

(** X16: one iteration of the loop of the video from noise, when the
    layers are found.  The rotation cannot fail; the dream call is handed
    the rotated and resized frame, never a blend; what is saved and kept as
    [last_img] is the dreamed frame; and the blend of the previous and the
    new dreamed frame, made exactly when the coefficient and a previous
    dreamed frame exist, is only the frame the next iteration starts
    from. *)
Theorem noise_frame_saves_dreamed_frame :
  forall (E : env) (U : utils) (CV : opencv) (model : model) (config : config)
         (frame_id : Z) (last_img : option image) (frame : image) (n : nat)
         (layer_ids_to_use : list Z),
    layer_ids (layer_names model) (layers_to_use config) = Ok layer_ids_to_use ->
    (0 <= spatial_shift_size config)%Z ->
    exists rotated dreamed n' evs,
      let input := cv_resize U rotated (1280, 720)%Z in
      rotate_max_area CV frame (25 / 100) (5, 5)%Z = Ok rotated /\
      deep_dream_static_image E U model config (Some input) n
      = (Ok (Some dreamed), n', evs) /\
      noise_frame E U CV model config frame_id (last_img, frame) n
      = (Ok (Some dreamed,
             match blend config, last_img with
             | Some coefficient, Some last => linear_blend U last dreamed coefficient
             | _, _ => input
             end),
         n',
         Dream (Some input) :: evs
           ++ match blend config, last_img with
              | Some _, Some _ => [Blend frame_id]
              | _, _ => []
              end
           ++ [Save (Some frame_id) (Some dreamed)]).
Proof.
  intros E U CV model config frame_id last_img frame n ids Hids Hs.
  destruct (rotate_max_area_ok CV frame (25 / 100) (5, 5)%Z) as [rotated Hrot].
  destruct (static_image_marks E U model config
              (Some (cv_resize U rotated (1280, 720)%Z)) n ids Hids Hs)
    as (dreamed & n' & evs & Hrun & _).
  exists rotated, dreamed, n', evs. cbv zeta. split; [exact Hrot|]. split; [exact Hrun|].
  assert (Hcase : last_img = None \/ Some dreamed <> None) by (right; discriminate).
  rewrite (noise_frame_run E U CV model config frame_id last_img frame rotated
             (Some dreamed) n n' evs Hrot Hcase Hrun).
  unfold next_frame, blended.
  destruct (blend config), last_img; reflexivity.
Qed.

Lemma noise_frame_saves_dreamed_frame_witness :
  exists rotated dreamed n' evs,
    let input := cv_resize (sample_utils two_valued) rotated (1280, 720)%Z in
    rotate_max_area sample_opencv [[[Fin 0%R]]] (25 / 100) (5, 5)%Z = Ok rotated /\
    deep_dream_static_image sample_env (sample_utils two_valued) sample_model
      sample_config (Some input) 0%nat
    = (Ok (Some dreamed), n', evs) /\
    noise_frame sample_env (sample_utils two_valued) sample_opencv sample_model
      sample_config 1 (Some [[[Fin 1%R]]], [[[Fin 0%R]]]) 0%nat
    = (Ok (Some dreamed,
           match blend sample_config, Some [[[Fin 1%R]]] with
           | Some coefficient, Some last =>
               linear_blend (sample_utils two_valued) last dreamed coefficient
           | _, _ => input
           end),
       n',
       Dream (Some input) :: evs
         ++ match blend sample_config, Some [[[Fin 1%R]]] with
            | Some _, Some _ => [Blend 1]
            | _, _ => []
            end
         ++ [Save (Some 1%Z) (Some dreamed)]).
Proof.
  apply (noise_frame_saves_dreamed_frame sample_env (sample_utils two_valued)
           sample_opencv sample_model sample_config 1 (Some [[[Fin 1%R]]])
           [[[Fin 0%R]]] 0%nat [1%Z]).
  - reflexivity.
  - cbn. lia.
Defined.

Lemma noise_frame_marks (E : env) (U : utils) (CV : opencv) (model : model)
      (config : config) (layer_ids_to_use : list Z) (frame_id : Z)
      (last_img : option image) (frame : image) (n : nat) :
  layer_ids (layer_names model) (layers_to_use config) = Ok layer_ids_to_use ->
  (0 <= spatial_shift_size config)%Z ->
  exists dreamed frame' n' evs,
    noise_frame E U CV model config frame_id (last_img, frame) n
    = (Ok (Some dreamed, frame'), n', evs) /\
    marks evs = Dreamt :: (if blended config last_img then [Blended frame_id] else [])
                  ++ [Saved (Some frame_id) true].
Proof.
  intros Hids Hs.
  destruct (rotate_max_area_ok CV frame (25 / 100) (5, 5)%Z) as [rotated Hrot].
  destruct (static_image_marks E U model config
              (Some (cv_resize U rotated (1280, 720)%Z)) n layer_ids_to_use Hids Hs)
    as (dreamed & n' & evs & Hrun & Hmarks).
  assert (Hcase : last_img = None \/ Some dreamed <> None) by (right; discriminate).
  do 4 eexists. split.
  - exact (noise_frame_run E U CV model config frame_id last_img frame rotated
             (Some dreamed) n n' evs Hrot Hcase Hrun).
  - change (Dream ?f :: ?l) with ([Dream f] ++ l).
    rewrite !marks_app, Hmarks. destruct (blended config last_img); reflexivity.
Qed.

Lemma range_cases (n : Z) :
  range n = [] \/
  exists rest, range n = 0%Z :: rest /\ forall x, In x rest -> (0 < x)%Z.
Proof.
  unfold range. destruct (Z.to_nat n) as [|k]; [now left|right].
  cbn [seq map]. eexists. split; [reflexivity|].
  intros x Hin. apply in_map_iff in Hin. destruct Hin as (i & <- & Hi).
  apply in_seq in Hi. lia.
Qed.

(** X17: with ffmpeg at hand, the layers to use among those of the
    fetched model and a non-negative [spatial_shift_size], the mode that
    dreams from noise runs to its end: for every frame number from 0 to
    [num_frames - 1], in this order, it makes one dream call and saves its
    result, an image, under that number; when a blend coefficient is set it
    blends after every dream call but the first, and never otherwise; it
    then assembles the video from the .jpg files of [tmp_out] and removes
    [tmp_input]. *)
Theorem noise_mode_dreams_every_frame :
  forall (E : env) (U : utils) (CV : opencv) (fetch : string -> string -> model)
         (config : config) (num_frames : Z) (n : nat) (layer_ids_to_use : list Z),
    let tmp_input_dir := path_join (OUT_VIDEOS_PATH U) "tmp_input" in
    let tmp_output_dir := path_join (OUT_VIDEOS_PATH U) "tmp_out" in
    let model := fetch (model_name config) (pretrained_weights config) in
    found E "ffmpeg" = true ->
    layer_ids (layer_names model) (layers_to_use config) = Ok layer_ids_to_use ->
    (0 <= spatial_shift_size config)%Z ->
    exists config' n' evs width height,
      deep_dream_video_from_noise E U CV fetch config num_frames n
      = (Ok config', n',
         evs ++ [CreateVideo width height (fps config)
                             (sorted (glob_jpg E tmp_output_dir));
                 Rmtree tmp_input_dir]) /\
      dump_dir config' = tmp_output_dir /\
      marks evs
      = flat_map (fun frame_id =>
                    Dreamt
                      :: match blend config with
                         | Some _ => if (0 <? frame_id)%Z then [Blended frame_id] else []
                         | None => []
                         end
                      ++ [Saved (Some frame_id) true])
                 (range num_frames).
Proof.
  intros E U CV fetch config num_frames n ids tmp_in tmp_out model Hff Hids Hs.
  set (config1 := set_dump_dir config tmp_out).
  set (frame_marks := fun frame_id : Z =>
         Dreamt :: match blend config with
                   | Some _ => if (0 <? frame_id)%Z then [Blended frame_id] else []
                   | None => []
                   end ++ [Saved (Some frame_id) true]).
  set (noise := random_uniform U n [720; 1280; 3]%Z).
  assert (Hloop : exists locals n' evs,
             for_loop (range num_frames) (noise_frame E U CV model config1)
                      (None, noise) (S n)
             = (Ok locals, n', evs) /\
             marks evs = flat_map frame_marks (range num_frames)).
  { destruct (range_cases num_frames) as [->|(rest & -> & Hrest)].
    - do 3 eexists. split; reflexivity.
    - destruct (noise_frame_marks E U CV model config1 ids 0 None noise (S n) Hids Hs)
        as (d0 & f0 & n0 & evs0 & Hrun0 & Hm0).
      destruct (for_loop_inv (fun l : option image * image => exists d, fst l = Some d)
                  marks frame_marks (noise_frame E U CV model config1) rest
                  marks_app eq_refl) with (l := (Some d0, f0)) (s := n0)
        as (l1 & n1 & evs1 & Hrun1 & _ & Hm1).
      { intros x [last frame] s Hin [d Hd]. cbn in Hd. subst last.
        destruct (noise_frame_marks E U CV model config1 ids x (Some d) frame s Hids Hs)
          as (d' & f' & n' & evs & Hrun & Hm).
        exists (Some d', f'), n', evs. split; [exact Hrun|]. split; [now exists d'|].
        rewrite Hm. unfold frame_marks, blended. change (blend config1) with (blend config).
        destruct (blend config); [|reflexivity].
        destruct (Z.ltb_spec 0 x) as [_|Hx]; [reflexivity|].
        specialize (Hrest x Hin). lia. }
      { now exists d0. }
      exists l1, n1, (evs0 ++ evs1). split.
      + cbn [for_loop]. rewrite (bind_ok _ Hrun0), Hrun1. reflexivity.
      + rewrite marks_app, Hm0, Hm1. cbn [flat_map]. unfold frame_marks at 3.
        unfold blended. change (blend config1) with (blend config).
        destruct (blend config); reflexivity. }
  destruct Hloop as ([last frame] & n' & evs & Hrun & Hm).
  unfold deep_dream_video_from_noise.
  fold tmp_in. fold tmp_out. fold config1. fold model.
  rewrite !bind_emit.
  rewrite (bind_ok _ (extract_frames_found E _ tmp_in n Hff)).
  unfold bind at 1. fold noise.
  change (fetch (model_name config1) (pretrained_weights config1)) with model.
  rewrite (bind_ok _ Hrun). cbn [snd].
  exists (set_img_dimensions config1 (shape frame)), n'.
  eexists (Makedirs tmp_in :: Makedirs tmp_out :: _ :: evs).
  exists (width frame), (height frame). split; [|split].
  - unfold create_video_from_intermediate_results, shape, bind, emit, ret.
    cbn. reflexivity.
  - reflexivity.
  - cbn. exact Hm.
Qed.

Lemma noise_mode_dreams_every_frame_witness :
  exists config' n' evs width height,
    deep_dream_video_from_noise sample_env (sample_utils two_valued) sample_opencv
      sample_fetch sample_config 2 0%nat
    = (Ok config', n',
       evs ++ [CreateVideo width height 5 []; Rmtree "data/out-videos/tmp_input"]) /\
    dump_dir config' = "data/out-videos/tmp_out" /\
    marks evs = [Dreamt; Saved (Some 0%Z) true;
                 Dreamt; Blended 1; Saved (Some 1%Z) true].
Proof.
  apply (noise_mode_dreams_every_frame sample_env (sample_utils two_valued)
           sample_opencv sample_fetch sample_config 2 0%nat [1%Z]).
  - reflexivity.
  - reflexivity.
  - cbn. lia.
Defined.

(** X18: when a layer to use is not a layer of the fetched model, the
    first dream call of the mode that dreams from noise returns [None]
    without a resize or a gradient ascent step, and [None] is what the loop
    hands to [save_and_maybe_display_image] for frame 0. *)
Theorem noise_mode_unknown_layer_saves_none :
  forall (E : env) (U : utils) (CV : opencv) (fetch : string -> string -> model)
         (config : config) (num_frames : Z) (n : nat) (layer_name : string),
    let tmp_input_dir := path_join (OUT_VIDEOS_PATH U) "tmp_input" in
    let tmp_output_dir := path_join (OUT_VIDEOS_PATH U) "tmp_out" in
    let model := fetch (model_name config) (pretrained_weights config) in
    found E "ffmpeg" = true ->
    In layer_name (layers_to_use config) ->
    ~ In layer_name (layer_names model) ->
    (1 <= num_frames)%Z ->
    exists argv input rest,
      events (deep_dream_video_from_noise E U CV fetch config num_frames n)
      = Makedirs tmp_input_dir :: Makedirs tmp_output_dir :: Subprocess argv
          :: Dream (Some input) :: Save (Some 0%Z) None :: rest.
Proof.
  intros E U CV fetch config num_frames n layer_name tmp_in tmp_out model
         Hff Hin Hout Hnum.
  set (config1 := set_dump_dir config tmp_out).
  set (noise := random_uniform U n [720; 1280; 3]%Z).
  destruct (rotate_max_area_ok CV noise (25 / 100) (5, 5)%Z) as [rotated Hrot].
  assert (Hnone : deep_dream_static_image E U model config1
                    (Some (cv_resize U rotated (1280, 720)%Z)) (S n)
                  = (Ok None, S n, [])).
  { unfold deep_dream_static_image.
    change (layers_to_use config1) with (layers_to_use config).
    destruct (layer_ids_absent (layer_names model) _ _ Hin Hout) as [e ->].
    reflexivity. }
  assert (Hrun := noise_frame_run E U CV model config1 0 None noise rotated None
                    (S n) (S n) [] Hrot (or_introl eq_refl) Hnone).
  unfold deep_dream_video_from_noise.
  fold tmp_in. fold tmp_out. fold config1.
  rewrite !bind_emit.
  rewrite (bind_ok _ (extract_frames_found E _ tmp_in n Hff)).
  unfold bind at 1. fold noise.
  change (fetch (model_name config1) (pretrained_weights config1)) with model.
  destruct (range_cases num_frames) as [Hnil|(rest & -> & _)].
  { unfold range in Hnil. destruct (Z.to_nat num_frames) eqn:Hk; [lia|discriminate Hnil]. }
  cbn [for_loop].
  match goal with
  | |- context [bind (bind ?c ?k1) ?k2 ?s] =>
      destruct (bind_events (bind c k1) k2 s) as [more1 Hev1];
      destruct (bind_events c k1 s) as [more2 Hev2]
  end.
  rewrite Hrun in Hev2. cbn [events snd] in Hev2.
  rewrite Hev2 in Hev1. unfold events in Hev1.
  match goal with
  | |- context [bind ?c ?k ?s] => destruct (bind c k s) as [[r s'] evs']
  end.
  cbn [snd] in Hev1. subst evs'.
  unfold blended. destruct (blend config1); cbn; do 3 eexists; reflexivity.
Qed.

Lemma noise_mode_unknown_layer_saves_none_witness :
  exists argv input rest,
    events (deep_dream_video_from_noise sample_env (sample_utils two_valued)
              sample_opencv unknown_layers_fetch sample_config 100 0%nat)
    = Makedirs "data/out-videos/tmp_input" :: Makedirs "data/out-videos/tmp_out"
        :: Subprocess argv :: Dream (Some input) :: Save (Some 0%Z) None :: rest.
Proof.
  apply (noise_mode_unknown_layer_saves_none sample_env (sample_utils two_valued)
           sample_opencv unknown_layers_fetch sample_config 100 0%nat "relu4_1").
  - reflexivity.
  - cbn. now left.
  - cbn. intros [H|[]]. discriminate H.
  - lia.
Defined.


(** ** clipped_zoom, zooming out *)

Lemma round_half_even_bounds (x : Q) :
  (Qfloor x <= round_half_even x <= Qfloor x + 1)%Z.
Proof.
  unfold round_half_even.
  destruct (x - inject_Z (Qfloor x) ?= 1 # 2)%Q; [destruct (Z.even (Qfloor x))| |]; lia.
Qed.

Lemma round_half_even_nonneg (x : Q) : (0 <= x)%Q -> (0 <= round_half_even x)%Z.
Proof.
  intros H. pose proof (round_half_even_bounds x) as [Hlo _].
  assert (0 <= Qfloor x)%Z; [|lia].
  change 0%Z with (Qfloor 0). now apply Qfloor_resp_le.
Qed.

Lemma round_half_even_le (x : Q) (n : Z) :
  (x <= inject_Z n)%Q -> (round_half_even x <= n)%Z.
Proof.
  intros H.
  assert (Hfl : (Qfloor x <= n)%Z).
  { rewrite <- (Qfloor_Z n). now apply Qfloor_resp_le. }
  destruct (Z.eq_dec (Qfloor x) n) as [Heq|Hne].
  - assert (Hx : (x == inject_Z n)%Q).
    { apply Qle_antisym; [exact H|]. rewrite <- Heq. apply Qfloor_le. }
    unfold round_half_even.
    assert (Hc : (x - inject_Z (Qfloor x) ?= 1 # 2)%Q = Lt).
    { rewrite Heq. apply -> Qlt_alt. rewrite Hx. unfold Qminus.
      rewrite Qplus_opp_r. reflexivity. }
    rewrite Hc. lia.
  - pose proof (round_half_even_bounds x). lia.
Qed.

Lemma firstn_repeat_le {X} (x : X) (a n : nat) :
  (a <= n)%nat -> firstn a (repeat x n) = repeat x a.
Proof.
  revert n. induction a as [|a IH]; intros n H; [reflexivity|].
  destruct n as [|n]; [lia|]. cbn. f_equal. apply IH. lia.
Qed.

Lemma skipn_repeat_le {X} (x : X) (a n : nat) :
  skipn a (repeat x n) = repeat x (n - a).
Proof.
  revert n. induction a as [|a IH]; intros n.
  - now rewrite Nat.sub_0_r.
  - destruct n as [|n]; [reflexivity|]. cbn. apply IH.
Qed.

Lemma slice_repeat {X} (x : X) (n : nat) (a b : Z) :
  (0 <= a <= b)%Z -> (b <= Z.of_nat n)%Z ->
  slice (repeat x n) a b = repeat x (Z.to_nat (b - a)).
Proof.
  intros Hab Hb. unfold slice, slice_bound. rewrite repeat_length.
  destruct (Z.ltb_spec a 0), (Z.ltb_spec b 0); try lia.
  rewrite !Z.min_r, !Z.max_r by lia.
  rewrite skipn_repeat_le, firstn_repeat_le by lia. reflexivity.
Qed.

Lemma splice_repeat {X} (x : X) (n : nat) (a b : Z) (v : list X) :
  (0 <= a <= b)%Z -> (b <= Z.of_nat n)%Z ->
  splice (repeat x n) a b v
  = repeat x (Z.to_nat a) ++ v ++ repeat x (n - Z.to_nat b).
Proof.
  intros Hab Hb. unfold splice, slice_bound. rewrite repeat_length.
  destruct (Z.ltb_spec a 0), (Z.ltb_spec b 0); try lia.
  rewrite !Z.min_r, !Z.max_r by lia.
  rewrite Nat.max_r by lia.
  rewrite skipn_repeat_le, firstn_repeat_le by lia. reflexivity.
Qed.

Lemma zeros_repeat {X} (zero : X) (w : nat) (img : list (list X)) :
  Forall (fun row => List.length row = w) img ->
  map (map (fun _ => zero)) img = repeat (repeat zero w) (List.length img).
Proof.
  induction 1 as [|row img Hrow _ IH]; [reflexivity|].
  cbn. rewrite IH. f_equal. subst w. clear.
  induction row as [|y row IH]; [reflexivity|]. cbn. now rewrite IH.
Qed.

Lemma map2_repeat {X Y Z'} (f : X -> Y -> Z') (x : X) (v : list Y) :
  map2 f (repeat x (List.length v)) v = map (f x) v.
Proof. induction v as [|y v IH]; [reflexivity|]. cbn. now rewrite IH. Qed.

Lemma same_lengths_repeat {X} (x : X) (k : nat) (v : list (list X)) :
  Forall (fun row => List.length row = k) v ->
  same_lengths (repeat (repeat x k) (List.length v)) v = true.
Proof.
  intros H. unfold same_lengths. rewrite repeat_length, Nat.eqb_refl. cbn [andb].
  induction H as [|row v Hrow _ IH]; [reflexivity|].
  cbn. rewrite repeat_length, Hrow, Nat.eqb_refl. exact IH.
Qed.

Lemma width_rows {X} (img : list (list X)) (w : nat) :
  Forall (fun row => List.length row = w) img ->
  img = [] \/ width img = Z.of_nat w.
Proof.
  intros H. destruct H as [|row rest Hrow _]; [now left|right].
  cbn. now rewrite Hrow.
Qed.

(** Zooming out in the model, where the products [h * zoom_factor] and
    [w * zoom_factor] are rounded as exact rationals. *)
Lemma clipped_zoom_out_run :
  forall (A : Type) (zero : A) (resample : list (list A) -> Z -> Z -> list (list A))
         (img : list (list A)) (zoom_factor : Q),
    let h := height img in
    let w := width img in
    let zh := round_half_even (inject_Z h * zoom_factor) in
    let zw := round_half_even (inject_Z w * zoom_factor) in
    let top := ((h - zh) / 2)%Z in
    let left := ((w - zw) / 2)%Z in
    let zoomed := resample img zh zw in
    let zeros := fun k : Z => repeat zero (Z.to_nat k) in
    Forall (fun row : list A => Z.of_nat (List.length row) = w) img ->
    (0 <= zoom_factor)%Q -> (zoom_factor < 1)%Q ->
    Z.of_nat (List.length zoomed) = zh ->
    Forall (fun row : list A => Z.of_nat (List.length row) = zw) zoomed ->
    (0 <= top /\ 0 <= h - top - zh /\ 0 <= left /\ 0 <= w - left - zw)%Z /\
    clipped_zoom zero resample img zoom_factor
    = Ok (repeat (zeros w) (Z.to_nat top)
            ++ map (fun row => zeros left ++ row ++ zeros (w - left - zw)%Z) zoomed
            ++ repeat (zeros w) (Z.to_nat (h - top - zh))).
Proof.
  intros A zero resample img z h w zh zw top left zoomed zeros Hrect Hz0 Hz1 Hrows Hcols.
  assert (Hh : (0 <= h)%Z) by (unfold h, height; lia).
  assert (Hw : (0 <= w)%Z) by (unfold w, width; destruct img; lia).
  assert (Hscale : forall n, (0 <= n)%Z ->
             (0 <= round_half_even (inject_Z n * z) <= n)%Z).
  { intros n Hn. split.
    - apply round_half_even_nonneg. apply Qmult_le_0_compat; [|exact Hz0].
      change 0%Q with (inject_Z 0). now rewrite <- Zle_Qle.
    - apply round_half_even_le.
      apply Qle_trans with (1 * inject_Z n)%Q.
      + rewrite (Qmult_comm (inject_Z n)).
        apply Qmult_le_compat_r; [now apply Qlt_le_weak|].
        change 0%Q with (inject_Z 0). now rewrite <- Zle_Qle.
      + rewrite Qmult_1_l. apply Qle_refl. }
  pose proof (Hscale h Hh) as Hzh. pose proof (Hscale w Hw) as Hzw.
  fold zh in Hzh. fold zw in Hzw.
  assert (Htop : (0 <= top /\ 2 * top <= h - zh)%Z).
  { unfold top. split; [apply Z.div_pos; lia|]. apply Z.mul_div_le. lia. }
  assert (Hleft : (0 <= left /\ 2 * left <= w - zw)%Z).
  { unfold left. split; [apply Z.div_pos; lia|]. apply Z.mul_div_le. lia. }
  split; [lia|].
  unfold clipped_zoom.
  assert (Hlt : (z ?= 1)%Q = Lt) by (now apply -> Qlt_alt).
  rewrite Hlt. fold h w. fold zh zw. fold top left.
  unfold zoom. fold h w. fold zh zw.
  destruct (Z.ltb_spec zh 0); [lia|]. destruct (Z.ltb_spec zw 0); [lia|].
  cbn [orb]. fold zoomed.
  assert (Hrect' : Forall (fun row => List.length row = Z.to_nat w) img).
  { eapply Forall_impl; [|exact Hrect]. cbn. intros row Hrow. lia. }
  rewrite (zeros_repeat zero (Z.to_nat w) img Hrect').
  fold (zeros w).
  assert (Hlen : List.length img = Z.to_nat h) by (unfold h, height; lia).
  rewrite Hlen.
  unfold assign2, slice2.
  rewrite slice_repeat by lia.
  replace (top + zh - top)%Z with zh by lia.
  assert (Hcols' : Forall (fun row => List.length row = Z.to_nat zw) zoomed).
  { eapply Forall_impl; [|exact Hcols]. cbn. intros row Hrow. lia. }
  assert (Hrows' : Z.to_nat zh = List.length zoomed) by lia.
  rewrite map_repeat. unfold zeros at 1. rewrite slice_repeat by lia.
  replace (left + zw - left)%Z with zw by lia.
  rewrite Hrows', (same_lengths_repeat zero (Z.to_nat zw) zoomed Hcols').
  rewrite map2_repeat, splice_repeat by lia.
  f_equal. apply f_equal. apply f_equal2.
  - apply map_ext. intros row. unfold zeros. rewrite splice_repeat by lia.
    do 3 f_equal. lia.
  - f_equal. lia.
Qed.

(** X19: zooming out by a factor in [[0, 1)] whose products with the
    height and the width are doubles (the factor is [numerator / 2^exponent]
    and the products of [numerator] with the height and the width stay
    below [2^53], so that lines 221-222 round the exact products) keeps the
    shape of the array (all rows of one length): the resampled array, of
    [round(h * zoom_factor)] rows of [round(w * zoom_factor)] entries, is
    written at [(top, left)] into zeros, so that the result has [top] zero
    rows above it and [h - top - zh] below, and each of its rows [left]
    zeros before and [w - left - zw] after. *)
Theorem clipped_zoom_out_pads_with_zeros :
  forall (A : Type) (zero : A) (resample : list (list A) -> Z -> Z -> list (list A))
         (img : list (list A)) (numerator : Z) (exponent : positive),
    let zoom_factor := Qmake numerator (2 ^ exponent) in
    let h := height img in
    let w := width img in
    let zh := round_half_even (inject_Z h * zoom_factor) in
    let zw := round_half_even (inject_Z w * zoom_factor) in
    let top := ((h - zh) / 2)%Z in
    let left := ((w - zw) / 2)%Z in
    let zoomed := resample img zh zw in
    let zeros := fun k : Z => repeat zero (Z.to_nat k) in
    Forall (fun row : list A => Z.of_nat (List.length row) = w) img ->
    (0 <= numerator < Z.pos (2 ^ exponent))%Z ->
    (Z.pos exponent <= 1074)%Z ->
    (numerator < 2 ^ 53)%Z ->
    (h * numerator < 2 ^ 53)%Z ->
    (w * numerator < 2 ^ 53)%Z ->
    Z.of_nat (List.length zoomed) = zh ->
    Forall (fun row : list A => Z.of_nat (List.length row) = zw) zoomed ->
    (0 <= top /\ 0 <= h - top - zh /\ 0 <= left /\ 0 <= w - left - zw)%Z /\
    clipped_zoom zero resample img zoom_factor
    = Ok (repeat (zeros w) (Z.to_nat top)
            ++ map (fun row => zeros left ++ row ++ zeros (w - left - zw)%Z) zoomed
            ++ repeat (zeros w) (Z.to_nat (h - top - zh))).
Proof.
  intros A zero resample img numerator exponent zoom_factor h w zh zw top left
         zoomed zeros Hrect Hnum _ _ _ _ Hrows Hcols.
  apply (clipped_zoom_out_run A zero resample img zoom_factor Hrect).
  - unfold zoom_factor, Qle. cbn. lia.
  - unfold zoom_factor, Qlt. cbn. lia.
  - exact Hrows.
  - exact Hcols.
Qed.

Lemma clipped_zoom_out_pads_with_zeros_witness :
  (0 <= 2 /\ 0 <= 10 - 2 - 5 /\ 0 <= 2 /\ 0 <= 10 - 2 - 5)%Z /\
  clipped_zoom 0%Z nearest ten_by_ten (1 # 2)
  = Ok (repeat (repeat 0%Z 10) 2
          ++ map (fun row => repeat 0%Z 2 ++ row ++ repeat 0%Z 3)
                 (nearest ten_by_ten 5 5)
          ++ repeat (repeat 0%Z 10) 3).
Proof.
  apply (clipped_zoom_out_pads_with_zeros Z 0%Z nearest ten_by_ten 1 1).
  - repeat constructor.
  - cbn. lia.
  - cbn. lia.
  - reflexivity.
  - reflexivity.
  - reflexivity.
  - reflexivity.
  - repeat constructor.
Defined.


(** ** The choice of the mode *)

Lemma ouroboros_mode_events (E : env) (U : utils) (config : config) (n : nat) :
  exists r n' evs,
    deep_dream_video_ouroboros E U config n = (r, n', evs) /\
    Forall (fun ev => dreams_or_saves ev = false) evs /\
    (forall c, r = Ok c ->
               (ouroboros_length config <= 0)%Z /\ use_noise config = false).
Proof.
  unfold deep_dream_video_ouroboros, deep_dream_video_ouroboros_with.
  destruct (existsb _ (SUPPORTED_IMAGE_FORMATS U)).
  - unfold range.
    destruct (Z.to_nat (ouroboros_length config)) as [|m] eqn:Hm.
    + destruct (use_noise config); cbn; do 3 eexists.
      * split; [reflexivity|]. split; [constructor|]. intros c Hc. discriminate Hc.
      * split; [reflexivity|]. split; [repeat constructor|].
        intros c _. split; [lia|reflexivity].
    + cbn. do 3 eexists. split; [reflexivity|]. split; [repeat constructor|].
      intros c Hc. discriminate Hc.
  - cbn. do 3 eexists. split; [reflexivity|]. split; [constructor|].
    intros c Hc. discriminate Hc.
Qed.

Lemma video_mode_events (E : env) (U : utils) (config : config) (n : nat) :
  exists e n' evs,
    deep_dream_video E U config n = (Raise e, n', evs) /\
    Forall (fun ev => dreams_or_saves ev = false) evs.
Proof.
  unfold deep_dream_video, deep_dream_video_with.
  rewrite !bind_emit.
  destruct (found E "ffmpeg") eqn:Hff.
  - rewrite (bind_ok _ (extract_frames_found E _ _ n Hff)).
    destruct (sorted (listdir E (path_join (OUT_VIDEOS_PATH U) "tmp_input")))
      as [|frame_name rest].
    + cbn. do 3 eexists. split; [reflexivity|repeat constructor].
    + cbn [enumerate List.length seq map combine for_loop].
      unfold bind at 1. unfold bind at 1.
      rewrite video_frame_run. unfold video_call, blended.
      destruct (blend (set_dump_dir config _)); cbn;
        do 3 eexists; (split; [reflexivity|repeat constructor]).
  - unfold bind, extract_frames. rewrite Hff. cbn.
    do 3 eexists. split; [reflexivity|repeat constructor].
Qed.

(** X20: unless [create_from_noise] is the string [True], the main
    block dreams nothing: whichever of the other three modes the
    configuration selects, the run makes no resize and no gradient ascent
    step and saves no image, and it ends in an exception except in the
    ouroboros mode asked for no iteration and started from the input
    image. *)
Theorem main_dreams_only_from_noise :
  forall (E : env) (U : utils) (CV : opencv) (fetch : string -> string -> model)
         (SUPPORTED_VIDEO_FORMATS : list string) (config : config) (n : nat),
    create_from_noise config <> Some "True" ->
    let run := dispatch E U CV fetch SUPPORTED_VIDEO_FORMATS config n in
    Forall (fun ev => dreams_or_saves ev = false) (events run) /\
    (outcome run = Ok tt ->
     create_ouroboros config = true /\ (ouroboros_length config <= 0)%Z /\
     use_noise config = false).
Proof.
  intros E U CV fetch formats config n Hnoise run. subst run. unfold dispatch.
  assert (Hno : is_True (create_from_noise config) = false).
  { unfold is_True. destruct (create_from_noise config) as [s|]; [|reflexivity].
    destruct (String.eqb_spec s "True") as [->|]; [now contradiction Hnoise|reflexivity]. }
  rewrite Hno.
  destruct (create_ouroboros config).
  - destruct (ouroboros_mode_events E U config n) as (r & n' & evs & Hrun & Hev & Hout).
    unfold bind. rewrite Hrun. destruct r as [c|e]; cbn.
    + rewrite app_nil_r. split; [exact Hev|]. intros _.
      destruct (Hout c eq_refl). auto.
    + split; [exact Hev|]. intros H. discriminate H.
  - destruct (existsb _ formats).
    + destruct (video_mode_events E U config n) as (e & n' & evs & Hrun & Hev).
      unfold bind. rewrite Hrun. cbn.
      split; [exact Hev|]. intros H. discriminate H.
    + cbn. split; [constructor|]. intros H. discriminate H.
Qed.

Lemma main_dreams_only_from_noise_witness :
  Forall (fun ev => dreams_or_saves ev = false)
         (events (dispatch sample_env (sample_utils two_valued) sample_opencv
                           sample_fetch [".mp4"] sample_config 0%nat)) /\
  (outcome (dispatch sample_env (sample_utils two_valued) sample_opencv
                     sample_fetch [".mp4"] sample_config 0%nat) = Ok tt ->
   create_ouroboros sample_config = true /\ (ouroboros_length sample_config <= 0)%Z /\
   use_noise sample_config = false).
Proof.
  apply (main_dreams_only_from_noise sample_env (sample_utils two_valued)
           sample_opencv sample_fetch [".mp4"] sample_config 0%nat).
  discriminate.
Defined.


(** ** Edges of deep_dream_static_image *)

Lemma range_pos (n : Z) : (1 <= n)%Z -> exists rest, range n = 0%Z :: rest.
Proof.
  intros H. destruct (range_cases n) as [Hnil|(rest & Hr & _)]; [|now exists rest].
  unfold range in Hnil. destruct (Z.to_nat n) eqn:Hk; [lia|discriminate Hnil].
Qed.

Lemma range_nonpos (n : Z) : (n <= 0)%Z -> range n = [].
Proof. intros H. unfold range. now replace (Z.to_nat n) with 0%nat by lia. Qed.

(** X21: a negative [spatial_shift_size] makes the interval of the random
    offsets empty: a dream call that found its layers and has at least one
    level and one iteration to run raises [ValueError] at the first
    iteration, after the resize of level 0 and before any gradient ascent
    step. *)
Theorem negative_shift_size_raises :
  forall (E : env) (U : utils) (model : model) (config : config)
         (img : option image) (n : nat) (layer_ids_to_use : list Z),
    layer_ids (layer_names model) (layers_to_use config) = Ok layer_ids_to_use ->
    (spatial_shift_size config < 0)%Z ->
    (1 <= pyramid_size config)%Z ->
    (1 <= num_gradient_ascent_iterations config)%Z ->
    exists n' new_shape,
      deep_dream_static_image E U model config img n
      = (Raise ValueError, n', [Resize 0 new_shape]).
Proof.
  intros E U model config img n ids Hids Hs Hp Hi.
  assert (Hstep : forall level iteration t s,
             jittered_step E U config model (text_prompt config) ids level iteration t s
             = (Raise ValueError, s, [])).
  { intros level iteration t s. unfold jittered_step, bind, randint.
    destruct (Z.ltb_spec (- spatial_shift_size config) (spatial_shift_size config + 1));
      [lia|reflexivity]. }
  assert (Hlevel : forall base_shape level img' s,
             pyramid_step E U config model (text_prompt config) ids base_shape level img' s
             = (Raise ValueError, s,
                [Resize level (get_new_shape U config base_shape level)])).
  { intros base_shape level img' s. unfold pyramid_step. rewrite bind_emit.
    destruct (range_pos _ Hi) as [iterations ->].
    cbn [for_loop]. unfold bind. rewrite Hstep. reflexivity. }
  unfold deep_dream_static_image. rewrite Hids.
  destruct (starting_image_run U config img n) as (img0 & n0 & Hstart).
  rewrite (bind_ok _ Hstart).
  destruct (range_pos _ Hp) as [levels ->].
  cbn [for_loop]. unfold bind. rewrite Hlevel.
  do 2 eexists. reflexivity.
Qed.

Lemma negative_shift_size_raises_witness :
  exists n' new_shape,
    deep_dream_static_image sample_env (sample_utils two_valued) sample_model
      (sized_config 3 10 (-1)) None 0%nat
    = (Raise ValueError, n', [Resize 0 new_shape]).
Proof.
  apply (negative_shift_size_raises sample_env (sample_utils two_valued) sample_model
           (sized_config 3 10 (-1)) None 0%nat [1%Z]).
  - reflexivity.
  - cbn. lia.
  - cbn. lia.
  - cbn. lia.
Defined.

(** ** The random shifts of a dream call *)

Lemma bind_closed {S E A B} (Q : list E -> Prop) (c : M S E A) (k : A -> M S E B)
      (s : S) :
  (forall a b, Q a -> Q b -> Q (a ++ b)) ->
  Q (events (c s)) ->
  (forall a s', Q (events (k a s'))) ->
  Q (events (bind c k s)).
Proof.
  intros Happ Hc Hk. unfold bind.
  destruct (c s) as [[[a|e] s'] evs]; [|exact Hc].
  specialize (Hk a s'). destruct (k a s') as [[r s''] evs'].
  apply Happ; assumption.
Qed.

Lemma for_loop_closed {S E X L} (Q : list E -> Prop) (body : X -> L -> M S E L) :
  Q [] ->
  (forall a b, Q a -> Q b -> Q (a ++ b)) ->
  (forall x l s, Q (events (body x l s))) ->
  forall xs l s, Q (events (for_loop xs body l s)).
Proof.
  intros Hnil Happ Hbody xs.
  induction xs as [|x xs IH]; intros l s; [exact Hnil|].
  cbn [for_loop]. apply bind_closed; [exact Happ|apply Hbody|].
  intros l' s'. apply IH.
Qed.

(** X22: with a non-negative [spatial_shift_size], every shift a dream
    call makes, and every undoing, moves the image by at most that many
    pixels along the height and along the width, and the shifts are undone
    one by one with the offsets they were made with. *)
Theorem shift_offsets_within_size :
  forall (E : env) (U : utils) (model : model) (config : config)
         (img : option image) (n : nat),
    (0 <= spatial_shift_size config)%Z ->
    let evs := events (deep_dream_static_image E U model config img n) in
    Forall (offsets_within (spatial_shift_size config)) evs /\
    shifts evs = undone evs.
Proof.
  intros E U model config img n Hs evs. subst evs.
  set (Q := fun evs : list event =>
              Forall (offsets_within (spatial_shift_size config)) evs /\
              shifts evs = undone evs).
  change (Q (events (deep_dream_static_image E U model config img n))).
  assert (Hnil : Q []) by (split; [constructor|reflexivity]).
  assert (Happ : forall a b, Q a -> Q b -> Q (a ++ b)).
  { intros a b [Ha Ha'] [Hb Hb']. split.
    - apply Forall_app. now split.
    - unfold shifts, undone in *. rewrite !flat_map_app. congruence. }
  assert (Hone : forall ev, offsets_within (spatial_shift_size config) ev ->
                            shifts [ev] = undone [ev] -> Q [ev]).
  { intros ev H1 H2. split; [now repeat constructor|exact H2]. }
  unfold deep_dream_static_image.
  destruct (layer_ids (layer_names model) (layers_to_use config)) as [ids|e];
    [|exact Hnil].
  apply bind_closed; [exact Happ| |].
  { destruct (starting_image_run U config img n) as (img0 & n0 & ->). exact Hnil. }
  intros img0 n0.
  apply bind_closed; [exact Happ| |intros; exact Hnil].
  apply for_loop_closed; [exact Hnil|exact Happ|].
  intros level img1 s1. unfold pyramid_step.
  apply bind_closed; [exact Happ|now apply Hone|].
  intros _ s2.
  apply bind_closed; [exact Happ| |intros; exact Hnil].
  apply for_loop_closed; [exact Hnil|exact Happ|].
  intros iteration t s3. rewrite jittered_step_run by exact Hs. cbn [events snd].
  pose proof (drawn_range E (spatial_shift_size config) s3 Hs).
  pose proof (drawn_range E (spatial_shift_size config) (S s3) Hs).
  split; [|reflexivity].
  repeat constructor; cbn; lia.
Qed.

Lemma shift_offsets_within_size_witness :
  Forall (offsets_within 32)
         (events (deep_dream_static_image sample_env (sample_utils two_valued)
                    sample_model sample_config None 0%nat)) /\
  shifts (events (deep_dream_static_image sample_env (sample_utils two_valued)
                    sample_model sample_config None 0%nat))
  = undone (events (deep_dream_static_image sample_env (sample_utils two_valued)
                      sample_model sample_config None 0%nat)).
Proof.
  apply (shift_offsets_within_size sample_env (sample_utils two_valued)
           sample_model sample_config None 0%nat).
  cbn. lia.
Defined.


(** ** rotatedRectWithMaxArea: the rectangle fits *)

Section RotatedRectFits.
Local Open Scope R_scope.

Lemma div_pos_neg (a b : R) : a < 0 -> b < 0 -> 0 < a / b.
Proof.
  intros Ha Hb. replace (a / b) with ((- a) / (- b)) by (field; lra).
  apply Rdiv_lt_0_compat; lra.
Qed.

(** X23: for positive sides and an angle whose absolute sine and cosine
    differ by at least [1e-10] (outside the tolerance of line 269), the
    rectangle [rotatedRectWithMaxArea] returns has positive sides and lies
    within the rotated rectangle: with [s] and [c] the absolute sine and
    cosine, [wr * c + hr * s <= w] and [wr * s + hr * c <= h].  In the
    fully constrained case both are equalities (the crop touches all four
    sides), in the half constrained case the one of the shorter side is. *)
Theorem rotated_rect_fits :
  forall w h angle : R,
    let s := Rabs (sin angle) in
    let c := Rabs (cos angle) in
    let side_long := if Rgeb w h then w else h in
    let side_short := if Rgeb w h then h else w in
    0 < w -> 0 < h ->
    1 / 10000000000 <= Rabs (s - c) ->
    exists wr hr,
      rotatedRectWithMaxArea w h angle = Ok (wr, hr) /\
      0 < wr /\ 0 < hr /\
      wr * c + hr * s <= w /\
      wr * s + hr * c <= h /\
      (2 * s * c * side_long < side_short ->
       wr * c + hr * s = w /\ wr * s + hr * c = h) /\
      (side_short <= 2 * s * c * side_long ->
       if Rgeb w h then wr * s + hr * c = h else wr * c + hr * s = w).
Proof.
  intros w h angle s c side_long side_short Hw Hh Hband.
  unfold rotatedRectWithMaxArea.
  assert (Hw0 : Rleb w 0 = false) by (apply Rleb_false; exact Hw).
  assert (Hh0 : Rleb h 0 = false) by (apply Rleb_false; exact Hh).
  rewrite Hw0, Hh0. cbn [orb].
  destruct (abs_sin_cos angle) as (Hs & Hc & Hsc).
  fold s in Hs, Hsc |- *. fold c in Hc, Hsc |- *.
  assert (Hnoband : Rltb (Rabs (s - c)) (1 / 10000000000) = false)
    by (apply Rltb_false; exact Hband).
  rewrite Hnoband, orb_false_r.
  assert (Hne : s <> c).
  { intros Heq. rewrite Heq, Rminus_diag, Rabs_R0 in Hband. lra. }
  fold side_long. fold side_short.
  destruct (Rleb side_short (2 * s * c * side_long)) eqn:Hcase.
  - (* half constrained case *)
    apply Rleb_true in Hcase.
    assert (Hlong : 0 < side_long) by (unfold side_long; destruct (Rgeb w h); assumption).
    assert (Hshort : 0 < side_short) by (unfold side_short; destruct (Rgeb w h); assumption).
    assert (Hs0 : 0 < s).
    { destruct Hs as [Hs|Hs]; [exact Hs|]. rewrite <- Hs in Hcase. lra. }
    assert (Hc0 : 0 < c).
    { destruct Hc as [Hc|Hc]; [exact Hc|]. rewrite <- Hc in Hcase. lra. }
    assert (Hsc0 : 0 < s * c) by (apply Rmult_lt_0_compat; assumption).
    set (x := 5 / 10 * side_short).
    assert (Hx : 0 < x) by (unfold x; lra).
    assert (Hcross : x / s * c + x / c * s <= side_long).
    { replace (x / s * c + x / c * s) with (side_short / (2 * (s * c))).
      - apply Rmult_le_reg_r with (2 * (s * c)); [lra|].
        unfold Rdiv. rewrite Rmult_assoc, Rinv_l by lra. lra.
      - unfold x. field_simplify_eq; [|lra]. nra. }
    assert (Hself : x / s * s + x / c * c = side_short).
    { unfold x. field. lra. }
    assert (Hswap : x / c * c + x / s * s = side_short) by lra.
    assert (Hcross' : x / c * s + x / s * c <= side_long) by lra.
    rewrite !pydiv_ok by lra.
    unfold side_long, side_short in *.
    destruct (Rgeb w h) eqn:Hgeb; cbn [pair_of]; do 2 eexists;
      (split; [reflexivity|]);
      (split; [apply Rdiv_lt_0_compat; assumption|]);
      (split; [apply Rdiv_lt_0_compat; assumption|]);
      (split; [lra|]); (split; [lra|]); (split; [intros; lra|intros; lra]).
  - (* fully constrained case *)
    apply Rleb_false in Hcase.
    assert (Hcos2 : c * c - s * s <> 0) by (intros H0; apply Hne; nra).
    rewrite !pydiv_ok by exact Hcos2. cbn [pair_of].
    do 2 eexists. split; [reflexivity|].
    assert (Hpos : 0 < (w * c - h * s) / (c * c - s * s) /\
                   0 < (h * c - w * s) / (c * c - s * s)).
    { unfold side_long, side_short in Hcase.
      destruct (Rlt_dec s c) as [Hlt|Hge].
      - assert (Hc2 : 1 < 2 * (c * c)) by nra.
        destruct (Rgeb w h) eqn:Hgeb.
        + apply Rgeb_true in Hgeb. split; apply Rdiv_lt_0_compat; nra.
        + apply Rgeb_false in Hgeb. split; apply Rdiv_lt_0_compat; nra.
      - assert (Hgt : c < s) by lra.
        assert (Hs2 : 1 < 2 * (s * s)) by nra.
        destruct (Rgeb w h) eqn:Hgeb.
        + apply Rgeb_true in Hgeb. split; apply div_pos_neg; nra.
        + apply Rgeb_false in Hgeb. split; apply div_pos_neg; nra. }
    destruct Hpos as [Hwr Hhr].
    assert (Hfit : (w * c - h * s) / (c * c - s * s) * c
                   + (h * c - w * s) / (c * c - s * s) * s = w
                   /\ (w * c - h * s) / (c * c - s * s) * s
                      + (h * c - w * s) / (c * c - s * s) * c = h).
    { split; field; exact Hcos2. }
    destruct Hfit as [Hfw Hfh].
    split; [exact Hwr|]. split; [exact Hhr|].
    split; [lra|]. split; [lra|]. split; [intros _; split; assumption|].
    intros H. lra.
Qed.

Lemma rotated_rect_fits_witness :
  exists wr hr,
    rotatedRectWithMaxArea 1280 720 0 = Ok (wr, hr) /\
    0 < wr /\ 0 < hr /\
    wr * Rabs (cos 0) + hr * Rabs (sin 0) <= 1280 /\
    wr * Rabs (sin 0) + hr * Rabs (cos 0) <= 720 /\
    (2 * Rabs (sin 0) * Rabs (cos 0) * (if Rgeb 1280 720 then 1280 else 720)
     < (if Rgeb 1280 720 then 720 else 1280) ->
     wr * Rabs (cos 0) + hr * Rabs (sin 0) = 1280 /\
     wr * Rabs (sin 0) + hr * Rabs (cos 0) = 720) /\
    ((if Rgeb 1280 720 then 720 else 1280)
     <= 2 * Rabs (sin 0) * Rabs (cos 0) * (if Rgeb 1280 720 then 1280 else 720) ->
     if Rgeb 1280 720
     then wr * Rabs (sin 0) + hr * Rabs (cos 0) = 720
     else wr * Rabs (cos 0) + hr * Rabs (sin 0) = 1280).
Proof.
  apply (rotated_rect_fits 1280 720 0).
  - lra.
  - lra.
  - rewrite sin_0, cos_0, Rabs_R0, Rabs_R1.
    replace (0 - 1) with (- (1)) by lra. rewrite Rabs_Ropp, Rabs_R1. lra.
Defined.

End RotatedRectFits.

End Coverage.
